(** * The Double Ratchet session engine of [state.go]

    A shallow embedding of the session state and of the operations of
    [state.go] ([New], [WithRemoteKey], [WithMaxSkip], [RatchetEncrypt],
    [RatchetDecrypt], [trySkippedMessageKeys], [skippedKey],
    [skipMessageKeys], [dhRatchet]), followed by the properties of the
    engine.

    Modelling choices, all read off the Go source:

    - Go's [uint] is taken at its width on 64-bit targets: a [Z] in
      [0, 2^64), every addition and subtraction wrapped explicitly
      ([uadd], [usub]).
    - [[32]byte] is a list of bytes; arrays compare with [==], modelled by
      decidable equality on the lists.
    - [[]byte] is a [slice]: either the nil slice or a slice over some
      bytes.  The distinction is kept because [RatchetDecrypt] tests
      [plaintext != nil].
    - A Go map is a reference.  [state.MkSkipped] therefore holds a
      location, and the maps themselves live in a store ([heap]).  Copying
      a [state] struct ([var sc state = *s]) copies the location, not the
      map.
    - Errors built with [fmt.Errorf("...: %s", err)] are constructors
      wrapping the inner error.
    - [Crypto.GenerateDH] is the only source of randomness: the outcome of
      the (at most one) call a function makes is an argument of that
      function. *)

From Stdlib Require Import ZArith String Ascii List Lia Strings.Byte.
From stdpp Require Import base gmap strings list pretty.

Local Open Scope Z_scope.

(** ** Machine integers *)

Definition uint_modulus : Z := 2 ^ 64.

Definition uint_wrap (z : Z) : Z := z mod uint_modulus.

(** [a + b] on [uint]. *)
Definition uadd (a b : Z) : Z := uint_wrap (a + b).

(** [a - b] on [uint]. *)
Definition usub (a b : Z) : Z := uint_wrap (a - b).

(** The values a [uint] variable can hold. *)
Definition is_uint (z : Z) : Prop := 0 <= z < uint_modulus.

(** ** Bytes, keys and slices *)

(** [[32]byte]. *)
Definition Key : Type := list byte.

#[global] Instance byte_eq_decision : EqDecision byte := byte_eq_dec.

(** [[32]byte{}], the zero value of the array type. *)
Definition zeroKey : Key := replicate 32 x00.

(** [[]byte]: the nil slice, or a (possibly empty) run of bytes. *)
Inductive slice : Type :=
| nil_slice
| mk_slice (data : list byte).

(** [p != nil]. *)
Definition not_nil (p : slice) : bool :=
  match p with
  | nil_slice => false
  | mk_slice _ => true
  end.

(** The bytes a slice ranges over ([len(p) == 0] for the nil slice). *)
Definition slice_bytes (p : slice) : list byte :=
  match p with
  | nil_slice => []
  | mk_slice data => data
  end.

(** [type AssociatedData []byte]. *)
Definition AssociatedData : Type := slice.

(** ** Errors *)

Inductive error : Type :=
| ErrPrimitive (msg : string)        (* an error value returned by the injected suite *)
| ErrZeroSharedKey                   (* "sharedKey must be non-zero" *)
| ErrGenerateDH (e : error)          (* "failed to generate dh pair: %s" *)
| ErrApplyOption (e : error)         (* "failed to apply option: %s" *)
| ErrNegativeMaxSkip                 (* "maxSkip must be non-negative" *)
| ErrTrySkipped (e : error)          (* "can't try skipped message: %s" *)
| ErrSkipPrevious (e : error)        (* "failed to skip previous chain message keys: %s" *)
| ErrRatchetStep (e : error)         (* "failed to perform ratchet step: %s" *)
| ErrSkipCurrent (e : error)         (* "failed to skip current chain message keys: %s" *)
| ErrFailedDecrypt (e : error)       (* "failed to decrypt: %s" *)
| ErrCantDecryptMessage (e : error)  (* "can't decrypt message: %s" *)
| ErrTooManyMessages (n : Z).        (* "too many messages: %d" *)

(** The too-many-skipped error, as [RatchetDecrypt] surfaces it from either
    call of [skipMessageKeys]. *)
Definition is_too_many_skipped (e : option error) : bool :=
  match e with
  | Some (ErrSkipCurrent (ErrTooManyMessages _)) => true
  | Some (ErrSkipPrevious (ErrTooManyMessages _)) => true
  | _ => false
  end.

(** ** Collaborators declared outside [state.go] *)

Module DHPair.
(** Modelled from the spec: the [DHPair] type is declared outside
    [state.go]; the spec describes it as a DH keypair (public+private),
    and the engine only calls its [PublicKey()] method. *)
Record t : Type := { PrivateKey : Key; PublicKey : Key }.
End DHPair.

Module MessageHeader.
(** Modelled from the spec: the message header
    [(DH: 32-byte public, PN: non-negative int, N: non-negative int)];
    the engine reads [DH], [N], [PN] and writes all three in
    [RatchetEncrypt]. *)
Record t : Type := { DH : Key; N : Z; PN : Z }.
End MessageHeader.

(** [Message{Header, Ciphertext}]. *)
Record Message : Type := { Header : MessageHeader.t; Ciphertext : slice }.

Module Crypto.
(** Modelled from the spec: the [Crypto] interface, declared outside
    [state.go], with the signatures the calls in [state.go] use.
    [GenerateDH] is absent from the record: its outcome is passed to the
    function that calls it. *)
Record t : Type := {
  DH : DHPair.t -> Key -> Key;
  KdfRK : Key -> Key -> Key * Key;
  KdfCK : Key -> Key * Key;
  Encrypt : Key -> slice -> slice -> slice;
  Decrypt : Key -> slice -> slice -> slice * option error
}.
End Crypto.

(** What one call of [Crypto.GenerateDH()] returned: [(DHPair, error)]. *)
Definition GenerateDH_outcome : Type := (DHPair.t * option error)%type.

(** ** The store of Go maps *)

Definition loc : Type := positive.

(** Every [map[string][32]byte] of the program, by location.  A location
    always denotes an allocated map ([New], the only constructor of a
    session, makes one); a location absent from the store reads as the
    empty map. *)
Definition heap : Type := gmap loc (gmap string Key).

(** [m[k]] with the [ok] flag, for the map at [l]. *)
Definition map_lookup (h : heap) (l : loc) (k : string) : option Key :=
  (h !!! l) !! k.

(** [m[k] = v] for the map at [l]. *)
Definition map_store (h : heap) (l : loc) (k : string) (v : Key) : heap :=
  <[l := <[k := v]> (h !!! l)]> h.

(** [delete(m, k)] for the map at [l]. *)
Definition map_delete (h : heap) (l : loc) (k : string) : heap :=
  <[l := delete k (h !!! l)]> h.

(** [make(map[string][32]byte)]: a fresh location holding the empty map. *)
Definition map_make (h : heap) : loc * heap :=
  let l := fresh (dom h) in (l, <[l := ∅]> h).

(** ** Session state *)

Record state : Type := {
  RK : Key;
  DHr : Key;
  DHs : DHPair.t;
  CKs : Key;
  CKr : Key;
  Ns : Z;
  Nr : Z;
  PN : Z;
  MkSkipped : loc;
  MaxSkip : Z;
  Crypto : Crypto.t
}.

Definition set_RK (v : Key) (s : state) : state :=
  {| RK := v; DHr := DHr s; DHs := DHs s; CKs := CKs s; CKr := CKr s;
     Ns := Ns s; Nr := Nr s; PN := PN s; MkSkipped := MkSkipped s;
     MaxSkip := MaxSkip s; Crypto := Crypto s |}.

Definition set_DHr (v : Key) (s : state) : state :=
  {| RK := RK s; DHr := v; DHs := DHs s; CKs := CKs s; CKr := CKr s;
     Ns := Ns s; Nr := Nr s; PN := PN s; MkSkipped := MkSkipped s;
     MaxSkip := MaxSkip s; Crypto := Crypto s |}.

Definition set_DHs (v : DHPair.t) (s : state) : state :=
  {| RK := RK s; DHr := DHr s; DHs := v; CKs := CKs s; CKr := CKr s;
     Ns := Ns s; Nr := Nr s; PN := PN s; MkSkipped := MkSkipped s;
     MaxSkip := MaxSkip s; Crypto := Crypto s |}.

Definition set_CKs (v : Key) (s : state) : state :=
  {| RK := RK s; DHr := DHr s; DHs := DHs s; CKs := v; CKr := CKr s;
     Ns := Ns s; Nr := Nr s; PN := PN s; MkSkipped := MkSkipped s;
     MaxSkip := MaxSkip s; Crypto := Crypto s |}.

Definition set_CKr (v : Key) (s : state) : state :=
  {| RK := RK s; DHr := DHr s; DHs := DHs s; CKs := CKs s; CKr := v;
     Ns := Ns s; Nr := Nr s; PN := PN s; MkSkipped := MkSkipped s;
     MaxSkip := MaxSkip s; Crypto := Crypto s |}.

Definition set_Ns (v : Z) (s : state) : state :=
  {| RK := RK s; DHr := DHr s; DHs := DHs s; CKs := CKs s; CKr := CKr s;
     Ns := v; Nr := Nr s; PN := PN s; MkSkipped := MkSkipped s;
     MaxSkip := MaxSkip s; Crypto := Crypto s |}.

Definition set_Nr (v : Z) (s : state) : state :=
  {| RK := RK s; DHr := DHr s; DHs := DHs s; CKs := CKs s; CKr := CKr s;
     Ns := Ns s; Nr := v; PN := PN s; MkSkipped := MkSkipped s;
     MaxSkip := MaxSkip s; Crypto := Crypto s |}.

Definition set_PN (v : Z) (s : state) : state :=
  {| RK := RK s; DHr := DHr s; DHs := DHs s; CKs := CKs s; CKr := CKr s;
     Ns := Ns s; Nr := Nr s; PN := v; MkSkipped := MkSkipped s;
     MaxSkip := MaxSkip s; Crypto := Crypto s |}.

Definition set_MaxSkip (v : Z) (s : state) : state :=
  {| RK := RK s; DHr := DHr s; DHs := DHs s; CKs := CKs s; CKr := CKr s;
     Ns := Ns s; Nr := Nr s; PN := PN s; MkSkipped := MkSkipped s;
     MaxSkip := v; Crypto := Crypto s |}.

(** ** [skippedKey] *)

(** One lower-case hexadecimal digit of [encoding/hex]. *)
Definition hex_digit (n : N) : ascii :=
  match n with
  | 0%N => "0" | 1%N => "1" | 2%N => "2" | 3%N => "3"
  | 4%N => "4" | 5%N => "5" | 6%N => "6" | 7%N => "7"
  | 8%N => "8" | 9%N => "9" | 10%N => "a" | 11%N => "b"
  | 12%N => "c" | 13%N => "d" | 14%N => "e" | _ => "f"
  end%char.

(** [hex.EncodeToString]: two digits per byte, high nibble first. *)
Fixpoint EncodeToString (bs : list byte) : string :=
  match bs with
  | [] => EmptyString
  | b :: rest =>
      String (hex_digit (to_N b / 16)%N)
        (String (hex_digit (to_N b mod 16)%N) (EncodeToString rest))
  end.

(** [fmt.Sprintf("%s%d", hex.EncodeToString(dh), n)]. *)
Definition skippedKey (dh : Key) (n : Z) : string :=
  EncodeToString dh +:+ pretty n.

(** ** Constructor and options *)

(** [type Option], a function from a pointer to the state to an [error]:
    the struct after the call and the error returned. *)
Definition Option : Type := state -> state * option error.

(** [WithRemoteKey(dhRemotePubKey)]. *)
Definition WithRemoteKey (dhRemotePubKey : Key) : Option :=
  fun s =>
    let s := set_DHr dhRemotePubKey s in
    let '(rk, cks) :=
      Crypto.KdfRK (Crypto s) (RK s) (Crypto.DH (Crypto s) (DHs s) (DHr s)) in
    let s := set_CKs cks (set_RK rk s) in
    (s, None).

(** [WithMaxSkip(maxSkip)]; [maxSkip] is a Go [int]. *)
Definition WithMaxSkip (maxSkip : Z) : Option :=
  fun s =>
    if maxSkip <? 0 then (s, Some ErrNegativeMaxSkip)
    else (set_MaxSkip (uint_wrap maxSkip) s, None).

(** The loop [for i := range opts] of [New]. *)
Fixpoint apply_options (opts : list Option) (s : state) : state * option error :=
  match opts with
  | [] => (s, None)
  | o :: rest =>
      match o s with
      | (s', Some e) => (s', Some (ErrApplyOption e))
      | (s', None) => apply_options rest s'
      end
  end.

(** [New(sharedKey, opts...)].  [DefaultCrypto{}] is declared outside
    [state.go] and is the parameter [DefaultCrypto]; [gen] is what
    [s.Crypto.GenerateDH()] returns.  The result is [(State, error)] with
    [inl s] for [(s, nil)] and [inr e] for [(nil, e)]. *)
Definition New (DefaultCrypto : Crypto.t) (sharedKey : Key) (opts : list Option)
    (gen : GenerateDH_outcome) (h : heap) : (state + error) * heap :=
  if decide (sharedKey = zeroKey) then (inr ErrZeroSharedKey, h)
  else
    let '(l, h) := map_make h in
    let s :=
      {| RK := sharedKey; DHr := zeroKey;
         DHs := {| DHPair.PrivateKey := zeroKey; DHPair.PublicKey := zeroKey |};
         CKs := sharedKey; CKr := sharedKey;
         Ns := 0; Nr := 0; PN := 0;
         MkSkipped := l; MaxSkip := 1000; Crypto := DefaultCrypto |} in
    let '(dhs, err) := gen in
    let s := set_DHs dhs s in
    match err with
    | Some e => (inr (ErrGenerateDH e), h)
    | None =>
        match apply_options opts s with
        | (_, Some e) => (inr e, h)
        | (s, None) => (inl s, h)
        end
    end.

(** ** The receiving chain, as the specification describes it *)

(** The chain key reached from [ck] by [n] steps of [KdfCK]. *)
Fixpoint chain_key (c : Crypto.t) (ck : Key) (n : nat) : Key :=
  match n with
  | O => ck
  | S n' => chain_key c (Crypto.KdfCK c ck).1 n'
  end.

(** The message key at position [n] of the chain that starts at [ck]: the
    one [KdfCK] yields after [n] earlier steps. *)
Definition chain_message_key (c : Crypto.t) (ck : Key) (n : nat) : Key :=
  (Crypto.KdfCK c (chain_key c ck n)).2.

Section Engine.

(** [MessageHeader.EncodeWithAD], a method declared outside [state.go]. *)
Variable EncodeWithAD : MessageHeader.t -> AssociatedData -> slice.

(** ** [RatchetEncrypt] *)

Definition RatchetEncrypt (s : state) (h : heap) (plaintext : slice)
    (ad : AssociatedData) : Message * state * heap :=
  let '(cks, mk) := Crypto.KdfCK (Crypto s) (CKs s) in
  let s := set_CKs cks s in
  let hd :=
    {| MessageHeader.DH := DHPair.PublicKey (DHs s);
       MessageHeader.N := Ns s;
       MessageHeader.PN := PN s |} in
  let s := set_Ns (uadd (Ns s) 1) s in
  let ciphertext := Crypto.Encrypt (Crypto s) mk plaintext (EncodeWithAD hd ad) in
  ({| Header := hd; Ciphertext := ciphertext |}, s, h).

(** ** [trySkippedMessageKeys] *)

(** The receiver is only read; the map it points to may lose an entry. *)
Definition trySkippedMessageKeys (s : state) (h : heap) (m : Message)
    (ad : AssociatedData) : slice * option error * heap :=
  let k := skippedKey (MessageHeader.DH (Header m)) (MessageHeader.N (Header m)) in
  match map_lookup h (MkSkipped s) k with
  | Some mk =>
      let '(plaintext, err) :=
        Crypto.Decrypt (Crypto s) mk (Ciphertext m) (EncodeWithAD (Header m) ad) in
      match err with
      | Some e => (nil_slice, Some (ErrCantDecryptMessage e), h)
      | None => (plaintext, None, map_delete h (MkSkipped s) k)
      end
  | None => (nil_slice, None, h)
  end.

(** ** [skipMessageKeys] *)

(** The loop [for s.Nr < until { ... }], run for at most [fuel] rounds. *)
Fixpoint skip_loop (fuel : nat) (s : state) (h : heap) (until : Z) : state * heap :=
  match fuel with
  | O => (s, h)
  | S fuel' =>
      if Nr s <? until then
        let '(ckr, mk) := Crypto.KdfCK (Crypto s) (CKr s) in
        let s := set_CKr ckr s in
        let h := map_store h (MkSkipped s) (skippedKey (DHr s) (Nr s)) mk in
        let s := set_Nr (uadd (Nr s) 1) s in
        skip_loop fuel' s h until
      else (s, h)
  end.

(** The loop runs [until - Nr] rounds when it runs at all, which is the
    fuel it is given. *)
Definition skipMessageKeys (s : state) (h : heap) (until : Z)
    : option error * state * heap :=
  if uadd (Nr s) (MaxSkip s) <? until then
    (Some (ErrTooManyMessages (usub until (Nr s))), s, h)
  else
    let '(s, h) := skip_loop (Z.to_nat (until - Nr s)) s h until in
    (None, s, h).

(** ** [dhRatchet] *)

Definition dhRatchet (s : state) (mh : MessageHeader.t) (gen : GenerateDH_outcome)
    : option error * state :=
  let s := set_PN (Ns s) s in
  let s := set_Ns 0 s in
  let s := set_Nr 0 s in
  let s := set_DHr (MessageHeader.DH mh) s in
  let '(rk, ckr) :=
    Crypto.KdfRK (Crypto s) (RK s) (Crypto.DH (Crypto s) (DHs s) (DHr s)) in
  let s := set_CKr ckr (set_RK rk s) in
  let '(dhs, err) := gen in
  let s := set_DHs dhs s in
  match err with
  | Some e => (Some (ErrGenerateDH e), s)
  | None =>
      let '(rk, cks) :=
        Crypto.KdfRK (Crypto s) (RK s) (Crypto.DH (Crypto s) (DHs s) (DHr s)) in
      (None, set_CKs cks (set_RK rk s))
  end.

(** ** [RatchetDecrypt] *)

(** The block [if m.Header.DH != sc.DHr { ... }] on the shadow copy:
    [inr] carries the shadow and the store on, [inl] is the early return
    with its error. *)
Definition ratchet_if_new_key (sc : state) (h : heap) (mh : MessageHeader.t)
    (gen : GenerateDH_outcome) : (error * heap) + (state * heap) :=
  if decide (MessageHeader.DH mh <> DHr sc) then
    match skipMessageKeys sc h (MessageHeader.PN mh) with
    | (Some e, _, h) => inl (ErrSkipPrevious e, h)
    | (None, sc, h) =>
        match dhRatchet sc mh gen with
        | (Some e, _) => inl (ErrRatchetStep e, h)
        | (None, sc) => inr (sc, h)
        end
    end
  else inr (sc, h).

(** [RatchetDecrypt(m, ad)] on the session [s] with the store [h].  The
    result is the returned [([]byte, error)], the struct [*s] after the
    call and the store after the call.  [sc] is the copy [*s]: it shares
    [MkSkipped] with [s], so every map update below is an update of the
    session's own map, while [*s] changes only at [*s = sc]. *)
Definition RatchetDecrypt (s : state) (h : heap) (m : Message)
    (ad : AssociatedData) (gen : GenerateDH_outcome)
    : slice * option error * state * heap :=
  let sc := s in
  let '(plaintext, err, h) := trySkippedMessageKeys sc h m ad in
  match err with
  | Some e => (nil_slice, Some (ErrTrySkipped e), s, h)
  | None =>
      if not_nil plaintext then (plaintext, None, s, h)
      else
        match ratchet_if_new_key sc h (Header m) gen with
        | inl (e, h) => (nil_slice, Some e, s, h)
        | inr (sc, h) =>
            match skipMessageKeys sc h (MessageHeader.N (Header m)) with
            | (Some e, _, h) => (nil_slice, Some (ErrSkipCurrent e), s, h)
            | (None, sc, h) =>
                let '(ckr, mk) := Crypto.KdfCK (Crypto sc) (CKr sc) in
                let sc := set_CKr ckr sc in
                let sc := set_Nr (uadd (Nr sc) 1) sc in
                let '(plaintext, err) :=
                  Crypto.Decrypt (Crypto sc) mk (Ciphertext m)
                    (EncodeWithAD (Header m) ad) in
                match err with
                | Some e => (nil_slice, Some (ErrFailedDecrypt e), s, h)
                | None => (plaintext, None, sc, h)
                end
            end
        end
  end.

(** The lookup key of a message in [MkSkipped]: the [k] of
    [trySkippedMessageKeys]. *)
Definition message_key (m : Message) : string :=
  skippedKey (MessageHeader.DH (Header m)) (MessageHeader.N (Header m)).

(** The call [s.Crypto.Decrypt(mk, m.Ciphertext, m.Header.EncodeWithAD(ad))]
    made by both paths of [RatchetDecrypt]. *)
Definition aead_open (s : state) (mk : Key) (m : Message) (ad : AssociatedData)
    : slice * option error :=
  Crypto.Decrypt (Crypto s) mk (Ciphertext m) (EncodeWithAD (Header m) ad).

End Engine.

(** ** A small concrete suite, for running the engine on examples *)

(** Byte addition modulo 256. *)
Definition byte_add (a b : byte) : byte :=
  default x00 (of_N ((to_N a + to_N b) mod 256)%N).

(** A suite with the shape of a real one: the DH of two pairs does not
    depend on the side that computes it, the KDFs are deterministic, and
    decryption checks a tag made of the message key before it releases the
    plaintext.  [nil_for_empty] selects what the decryption of an empty
    plaintext returns: an empty non-nil slice ([make([]byte, 0)]), or the
    nil slice (what appending zero bytes to a nil destination gives). *)
Definition toy_suite (nil_for_empty : bool) : Crypto.t :=
  {| Crypto.DH := fun dhs pub => zip_with byte_add (DHPair.PrivateKey dhs) pub;
     Crypto.KdfRK := fun rk dh =>
       let k := zip_with byte_add rk dh in
       (byte_add x01 <$> k, byte_add x02 <$> k);
     Crypto.KdfCK := fun ck => (byte_add x01 <$> ck, byte_add x80 <$> ck);
     Crypto.Encrypt := fun mk plaintext _ => mk_slice (mk ++ slice_bytes plaintext);
     Crypto.Decrypt := fun mk ciphertext _ =>
       let c := slice_bytes ciphertext in
       if decide (take (length mk) c = mk) then
         match drop (length mk) c with
         | [] => (if nil_for_empty then nil_slice else mk_slice [], None)
         | p => (mk_slice p, None)
         end
       else (nil_slice, Some (ErrPrimitive "invalid signature")) |}.

(** The pair of a toy party: the public key is the private key. *)
Definition toy_pair (b : byte) : DHPair.t :=
  {| DHPair.PrivateKey := replicate 32 b; DHPair.PublicKey := replicate 32 b |}.

(** A header encoding: the ratchet key followed by the associated data. *)
Definition toy_encode (hd : MessageHeader.t) (ad : AssociatedData) : slice :=
  mk_slice (MessageHeader.DH hd ++ slice_bytes ad).

Definition toy_shared_key : Key := replicate 32 x07.

(** The store of a party that has just been constructed. *)
Definition toy_store : heap := {[ 1%positive := ∅ ]}.

(** Alice, constructed with Bob's ratchet public key
    ([New(shared, WithRemoteKey(bobPublic))]). *)
Definition toy_alice (nil_for_empty : bool) : state :=
  {| RK := replicate 32 x1d; DHr := replicate 32 x0b; DHs := toy_pair x0a;
     CKs := replicate 32 x1e; CKr := toy_shared_key;
     Ns := 0; Nr := 0; PN := 0; MkSkipped := 1%positive; MaxSkip := 1000;
     Crypto := toy_suite nil_for_empty |}.

(** Bob, constructed without a remote key ([New(shared)]). *)
Definition toy_bob (nil_for_empty : bool) : state :=
  {| RK := toy_shared_key; DHr := zeroKey; DHs := toy_pair x0b;
     CKs := toy_shared_key; CKr := toy_shared_key;
     Ns := 0; Nr := 0; PN := 0; MkSkipped := 1%positive; MaxSkip := 1000;
     Crypto := toy_suite nil_for_empty |}.

(** Alice sends two messages in a row: an empty one, then ["hi"]. *)
Definition toy_sent (nil_for_empty : bool) : Message * Message :=
  let '(m0, a, ha) :=
    RatchetEncrypt toy_encode (toy_alice nil_for_empty) toy_store
      (mk_slice []) nil_slice in
  let '(m1, _, _) := RatchetEncrypt toy_encode a ha (mk_slice [x68; x69]) nil_slice in
  (m0, m1).

(** The second message with its ciphertext replaced on the way. *)
Definition toy_tampered (nil_for_empty : bool) : Message :=
  {| Header := Header (toy_sent nil_for_empty).2; Ciphertext := mk_slice [x00] |}.

(** The first message with its ciphertext replaced on the way. *)
Definition toy_tampered_first (nil_for_empty : bool) : Message :=
  {| Header := Header (toy_sent nil_for_empty).1; Ciphertext := mk_slice [x00] |}.

(** Bob and his store after the second message reached him first. *)
Definition toy_bob_after_second (nil_for_empty : bool) : state * heap :=
  let '(_, _, b, hb) :=
    RatchetDecrypt toy_encode (toy_bob nil_for_empty) toy_store
      (toy_sent nil_for_empty).2 nil_slice (toy_pair x0c, None) in
  (b, hb).

(** A session that has already received five messages of its chain. *)
Definition toy_receiver_at_five : state :=
  set_Nr 5 (set_DHr (replicate 32 x0a) (toy_bob false)).

(** A message of that chain, numbered far beyond the skip window. *)
Definition toy_far_message : Message :=
  {| Header := {| MessageHeader.DH := replicate 32 x0a;
                  MessageHeader.N := 2000;
                  MessageHeader.PN := 0 |};
     Ciphertext := mk_slice [] |}.

(** ** Sequences of calls *)

Section Sequences.

Variable EncodeWithAD : MessageHeader.t -> AssociatedData -> slice.

(** [RatchetEncrypt] called once per plaintext, in order, with one
    associated data: the messages produced, and the session after the last
    call. *)
Fixpoint RatchetEncrypt_all (s : state) (h : heap) (plaintexts : list slice)
    (ad : AssociatedData) : list Message * state * heap :=
  match plaintexts with
  | [] => ([], s, h)
  | plaintext :: rest =>
      let '(m, s, h) := RatchetEncrypt EncodeWithAD s h plaintext ad in
      let '(ms, s, h) := RatchetEncrypt_all s h rest ad in
      (m :: ms, s, h)
  end.

(** [RatchetDecrypt] called once per message, in order, with one
    associated data; [gen i] is what [GenerateDH] returns if the [i]-th
    call (counted from [first]) asks for a pair.  The results of the calls,
    and the session after the last one. *)
Fixpoint RatchetDecrypt_all (s : state) (h : heap) (ms : list Message)
    (ad : AssociatedData) (gen : nat -> GenerateDH_outcome) (first : nat)
    : list (slice * option error) * state * heap :=
  match ms with
  | [] => ([], s, h)
  | m :: rest =>
      let '(plaintext, err, s, h) := RatchetDecrypt EncodeWithAD s h m ad (gen first) in
      let '(results, s, h) := RatchetDecrypt_all s h rest ad gen (S first) in
      ((plaintext, err) :: results, s, h)
  end.

End Sequences.

(** The receiving side of [b] stands where the sending side of [a]
    stands: same suite, [b] has [a]'s ratchet public key as its remote
    key, [b]'s receiving chain key is [a]'s sending chain key, and [b] has
    received as many messages of the chain as [a] has sent. *)
Definition in_sync (a b : state) : Prop :=
  Crypto b = Crypto a /\
  DHr b = DHPair.PublicKey (DHs a) /\
  CKr b = CKs a /\
  Nr b = Ns a.

(** [a] has taken a DH ratchet step that [b] has not followed yet: [a]'s
    remote key is the public key of [b]'s current pair, and [a]'s root key
    and sending chain are what [KdfRK] yields from [b]'s root key and the
    DH output of [b]'s pair with [a]'s public key, the sending chain being
    advanced once per message [a] has sent on it. *)
Definition leads (a b : state) : Prop :=
  let c := Crypto a in
  let k := Crypto.KdfRK c (RK b)
             (Crypto.DH c (DHs b) (DHPair.PublicKey (DHs a))) in
  Crypto b = c /\
  DHr a = DHPair.PublicKey (DHs b) /\
  RK a = k.1 /\
  CKs a = chain_key c k.2 (Z.to_nat (Ns a)).

(** The DH outputs of two pairs agree: each side, with its own pair and
    the other's public key, computes the same value. *)
Definition dh_agree (c : Crypto.t) (x y : DHPair.t) : Prop :=
  Crypto.DH c x (DHPair.PublicKey y) = Crypto.DH c y (DHPair.PublicKey x).

(** The plaintexts of Alice's first two messages. *)
Definition toy_plaintexts : list slice := [mk_slice []; mk_slice [x68; x69]].

(** Alice after she has sent her first two messages. *)
Definition toy_alice_after_second (nil_for_empty : bool) : state :=
  (RatchetEncrypt_all toy_encode (toy_alice nil_for_empty) toy_store
     toy_plaintexts nil_slice).1.2.

(** Number 7 of the chain of [toy_receiver_at_five], two positions past its
    counter, sealed under the key of its position. *)
Definition toy_chain_message : Message :=
  {| Header := {| MessageHeader.DH := replicate 32 x0a;
                  MessageHeader.N := 7;
                  MessageHeader.PN := 0 |};
     Ciphertext :=
       Crypto.Encrypt (toy_suite false)
         (chain_message_key (toy_suite false) toy_shared_key 2)
         (mk_slice [x68; x69]) nil_slice |}.

(** The same header over a ciphertext that no key opens. *)
Definition toy_chain_forged : Message :=
  {| Header := Header toy_chain_message; Ciphertext := mk_slice [x00] |}.

(** A first message under a new ratchet key that reports 5000 messages in
    the sender's previous chain. *)
Definition toy_far_previous : Message :=
  {| Header := {| MessageHeader.DH := replicate 32 x0a;
                  MessageHeader.N := 0;
                  MessageHeader.PN := 5000 |};
     Ciphertext := mk_slice [] |}.

(** Alice sends ["hi"] and then an empty message. *)
Definition toy_sent_empty_second (nil_for_empty : bool) : Message * Message :=
  let '(m0, a, ha) :=
    RatchetEncrypt toy_encode (toy_alice nil_for_empty) toy_store
      (mk_slice [x68; x69]) nil_slice in
  let '(m1, _, _) := RatchetEncrypt toy_encode a ha (mk_slice []) nil_slice in
  (m0, m1).

(** Bob and his store after Alice's first message has reached him. *)
Definition toy_bob_after_first (nil_for_empty : bool) : state * heap :=
  let '(_, _, b, hb) :=
    RatchetDecrypt toy_encode (toy_bob nil_for_empty) toy_store
      (toy_sent_empty_second nil_for_empty).1 nil_slice (toy_pair x0c, None) in
  (b, hb).

(** A forged message under Alice's ratchet key, numbered 2, that no key
    opens. *)
Definition toy_forged_third : Message :=
  {| Header := {| MessageHeader.DH := replicate 32 x0a;
                  MessageHeader.N := 2;
                  MessageHeader.PN := 0 |};
     Ciphertext := mk_slice [x00] |}.

(** Bob and his store after the forged message has been refused. *)
Definition toy_bob_after_forged (nil_for_empty : bool) : state * heap :=
  let '(_, _, b, hb) :=
    RatchetDecrypt toy_encode (toy_bob_after_first nil_for_empty).1
      (toy_bob_after_first nil_for_empty).2 toy_forged_third nil_slice
      (toy_pair x0d, None) in
  (b, hb).

(** * Properties *)

(** ** Machine integers *)

Lemma uint_wrap_id (z : Z) : is_uint z -> uint_wrap z = z.
Proof. unfold is_uint, uint_wrap. intros Hz. apply Z.mod_small. exact Hz. Qed.

Lemma uadd_no_overflow (a b : Z) :
  0 <= a -> 0 <= b -> a + b < uint_modulus -> uadd a b = a + b.
Proof. intros Ha Hb Hab. apply uint_wrap_id. unfold is_uint. lia. Qed.

Lemma uadd_is_uint (a b : Z) : is_uint (uadd a b).
Proof.
  unfold is_uint, uadd, uint_wrap, uint_modulus.
  apply Z.mod_pos_bound. reflexivity.
Qed.

(** When the sum does not overflow, the guard of [skipMessageKeys] compares
    the number of keys to derive with [MaxSkip]. *)
Lemma skip_guard_counts_keys (nr maxskip until : Z) :
  0 <= nr -> 0 <= maxskip -> nr + maxskip < uint_modulus ->
  (uadd nr maxskip < until <-> maxskip < until - nr).
Proof. intros Hn Hm Hs. rewrite uadd_no_overflow by lia. lia. Qed.

(** ** [skippedKey] and the store *)

Lemma skippedKey_inj_index (dh : Key) (i j : Z) :
  skippedKey dh i = skippedKey dh j -> i = j.
Proof.
  unfold skippedKey. intros Heq.
  apply String.app_inj in Heq. by apply pretty_Z_inj in Heq.
Qed.

Lemma map_lookup_delete_eq (h : heap) l k : map_lookup (map_delete h l k) l k = None.
Proof.
  unfold map_lookup, map_delete, heap in *.
  rewrite lookup_total_insert_eq. apply lookup_delete_eq.
Qed.

Lemma map_lookup_delete_ne (h : heap) l k k' :
  k <> k' -> map_lookup (map_delete h l k) l k' = map_lookup h l k'.
Proof.
  intros Hne. unfold map_lookup, map_delete, heap in *.
  rewrite lookup_total_insert_eq. by apply lookup_delete_ne.
Qed.

Lemma map_delete_other_loc (h : heap) l l' k :
  l <> l' -> map_delete h l k !! l' = h !! l'.
Proof. intros Hne. unfold map_delete, heap in *. by apply lookup_insert_ne. Qed.

Lemma map_lookup_store_eq (h : heap) l k v : map_lookup (map_store h l k v) l k = Some v.
Proof.
  unfold map_lookup, map_store, heap in *.
  rewrite lookup_total_insert_eq. apply lookup_insert_eq.
Qed.

Lemma map_lookup_store_ne (h : heap) l k k' v :
  k <> k' -> map_lookup (map_store h l k v) l k' = map_lookup h l k'.
Proof.
  intros Hne. unfold map_lookup, map_store, heap in *.
  rewrite lookup_total_insert_eq. by apply lookup_insert_ne.
Qed.

Lemma map_store_other_loc (h : heap) l l' k v :
  l <> l' -> map_store h l k v !! l' = h !! l'.
Proof. intros Hne. unfold map_store, heap in *. by apply lookup_insert_ne. Qed.

Lemma map_make_fresh (h : heap) : h !! (map_make h).1 = None.
Proof.
  unfold map_make, heap in *. simpl.
  apply not_elem_of_dom. apply is_fresh.
Qed.

Lemma map_make_empty (h : heap) k : map_lookup (map_make h).2 (map_make h).1 k = None.
Proof.
  unfold map_lookup, map_make, heap in *. simpl.
  rewrite lookup_total_insert_eq. apply lookup_empty.
Qed.

Section EngineProperties.

Variable EncodeWithAD : MessageHeader.t -> AssociatedData -> slice.

(** ** The skipped-key path *)

Lemma trySkippedMessageKeys_miss s h m ad :
  map_lookup h (MkSkipped s) (message_key m) = None ->
  trySkippedMessageKeys EncodeWithAD s h m ad = (nil_slice, None, h).
Proof. unfold message_key, trySkippedMessageKeys. intros ->. reflexivity. Qed.

Lemma trySkippedMessageKeys_hit s h m ad mk p :
  map_lookup h (MkSkipped s) (message_key m) = Some mk ->
  aead_open EncodeWithAD s mk m ad = (p, None) ->
  trySkippedMessageKeys EncodeWithAD s h m ad =
    (p, None, map_delete h (MkSkipped s) (message_key m)).
Proof.
  unfold message_key, aead_open, trySkippedMessageKeys.
  intros -> ->. reflexivity.
Qed.

Lemma trySkippedMessageKeys_reject s h m ad mk p e :
  map_lookup h (MkSkipped s) (message_key m) = Some mk ->
  aead_open EncodeWithAD s mk m ad = (p, Some e) ->
  trySkippedMessageKeys EncodeWithAD s h m ad =
    (nil_slice, Some (ErrCantDecryptMessage e), h).
Proof.
  unfold message_key, aead_open, trySkippedMessageKeys.
  intros -> ->. reflexivity.
Qed.

(** A stored key that opens the message to a non-nil plaintext: the
    plaintext is returned at once, [*s] is untouched and the map has lost
    the entry. *)
Lemma RatchetDecrypt_skipped_hit s h m ad gen mk p :
  map_lookup h (MkSkipped s) (message_key m) = Some mk ->
  aead_open EncodeWithAD s mk m ad = (p, None) ->
  not_nil p = true ->
  RatchetDecrypt EncodeWithAD s h m ad gen =
    (p, None, s, map_delete h (MkSkipped s) (message_key m)).
Proof.
  intros Hk Hd Hp. unfold RatchetDecrypt.
  rewrite (trySkippedMessageKeys_hit _ _ _ _ _ _ Hk Hd), Hp. reflexivity.
Qed.

(** X2.  A stored key that does not open the message: an error, and
    neither [*s] nor the store has changed, so the entry is still there. *)
Lemma RatchetDecrypt_skipped_reject s h m ad gen mk p e :
  map_lookup h (MkSkipped s) (message_key m) = Some mk ->
  aead_open EncodeWithAD s mk m ad = (p, Some e) ->
  RatchetDecrypt EncodeWithAD s h m ad gen =
    (nil_slice, Some (ErrTrySkipped (ErrCantDecryptMessage e)), s, h).
Proof.
  intros Hk Hd. unfold RatchetDecrypt.
  rewrite (trySkippedMessageKeys_reject _ _ _ _ _ _ _ Hk Hd). reflexivity.
Qed.

(** X17.  The skipped-key path for a non-nil plaintext.  If the map holds
    a key under [(header.DH, header.N)], that key opens the message
    without error, and the plaintext it yields is not the nil slice, then
    [RatchetDecrypt] returns that plaintext by its first
    [return plaintext, nil] and the struct of the session is returned as
    it was: [RK], [DHs], [DHr], [CKs], [CKr], [Ns], [Nr], [PN], [MaxSkip]
    are all unchanged.  The one change is in the map: the consumed entry
    is gone and every other entry, and every other map, is as before.
    (For a nil plaintext the call goes on to the receiving chain.) *)
Theorem RatchetDecrypt_skipped_path_frame s h m ad gen mk p :
  map_lookup h (MkSkipped s) (message_key m) = Some mk ->
  aead_open EncodeWithAD s mk m ad = (p, None) ->
  not_nil p = true ->
  exists s' h',
    RatchetDecrypt EncodeWithAD s h m ad gen = (p, None, s', h') /\
    s' = s /\
    (RK s' = RK s /\ DHs s' = DHs s /\ DHr s' = DHr s /\ CKs s' = CKs s /\
     CKr s' = CKr s /\ Ns s' = Ns s /\ Nr s' = Nr s /\ PN s' = PN s /\
     MaxSkip s' = MaxSkip s /\ MkSkipped s' = MkSkipped s) /\
    map_lookup h' (MkSkipped s) (message_key m) = None /\
    (forall k, k <> message_key m ->
       map_lookup h' (MkSkipped s) k = map_lookup h (MkSkipped s) k) /\
    (forall l, l <> MkSkipped s -> h' !! l = h !! l).
Proof.
  intros Hk Hd Hp.
  exists s, (map_delete h (MkSkipped s) (message_key m)).
  split; [by apply RatchetDecrypt_skipped_hit with mk|].
  split; [reflexivity|]. split; [by repeat split|].
  split; [apply map_lookup_delete_eq|].
  split; [intros k Hne; by apply map_lookup_delete_ne|].
  intros l Hne. by apply map_delete_other_loc.
Qed.

(** ** [RatchetEncrypt] *)

(** C7.  [RatchetEncrypt(plaintext, ad)] on a session with sending chain
    key [CKs0] and counters [Ns0], [PN0] computes [(CKs1, mk) = KdfCK(CKs0)]
    and returns the message whose header is
    [(DH = DHs.PublicKey(), N = Ns0, PN = PN0)] and whose ciphertext is
    [Encrypt(mk, plaintext, header.EncodeWithAD(ad))]; after the call
    [CKs = CKs1] and [Ns] is [Ns0] incremented: [s.Ns++] on a [uint],
    which is [Ns0 + 1] for every counter below the largest [uint]. *)
Theorem RatchetEncrypt_message_and_chain s h plaintext ad :
  let CKs1 := (Crypto.KdfCK (Crypto s) (CKs s)).1 in
  let mk := (Crypto.KdfCK (Crypto s) (CKs s)).2 in
  let hd :=
    {| MessageHeader.DH := DHPair.PublicKey (DHs s);
       MessageHeader.N := Ns s;
       MessageHeader.PN := PN s |} in
  let m := (RatchetEncrypt EncodeWithAD s h plaintext ad).1.1 in
  let s' := (RatchetEncrypt EncodeWithAD s h plaintext ad).1.2 in
  Header m = hd /\
  Ciphertext m = Crypto.Encrypt (Crypto s) mk plaintext (EncodeWithAD hd ad) /\
  CKs s' = CKs1 /\
  Ns s' = uadd (Ns s) 1 /\
  (0 <= Ns s -> Ns s + 1 < uint_modulus -> Ns s' = Ns s + 1).
Proof.
  unfold RatchetEncrypt.
  destruct (Crypto.KdfCK (Crypto s) (CKs s)) as [cks mk]. simpl.
  split; [reflexivity|]. split; [reflexivity|]. split; [reflexivity|].
  split; [reflexivity|]. intros H0 H1. apply uadd_no_overflow; lia.
Qed.

(** C8.  [RatchetEncrypt] changes [CKs] (one step of [KdfCK]) and [Ns]
    (incremented) and nothing else: [RK], [DHs], [DHr], [CKr], [Nr], [PN],
    [MaxSkip] and the map [MkSkipped] (the reference and the whole store
    of maps) are as before the call. *)
Theorem RatchetEncrypt_frame s h plaintext ad :
  let s' := (RatchetEncrypt EncodeWithAD s h plaintext ad).1.2 in
  let h' := (RatchetEncrypt EncodeWithAD s h plaintext ad).2 in
  s' = set_Ns (uadd (Ns s) 1) (set_CKs (Crypto.KdfCK (Crypto s) (CKs s)).1 s) /\
  RK s' = RK s /\ DHs s' = DHs s /\ DHr s' = DHr s /\ CKr s' = CKr s /\
  Nr s' = Nr s /\ PN s' = PN s /\ MaxSkip s' = MaxSkip s /\
  MkSkipped s' = MkSkipped s /\ Crypto s' = Crypto s /\
  h' = h.
Proof.
  unfold RatchetEncrypt.
  destruct (Crypto.KdfCK (Crypto s) (CKs s)) as [cks mk]. simpl.
  repeat split.
Qed.

(** ** [dhRatchet] *)

(** C5.  The DH ratchet step on header [mh], with [dhs] the pair that
    [GenerateDH] returns: [PN] becomes the old [Ns], [Ns] and [Nr] become
    0, [DHr] becomes [mh.DH]; [(RK1, CKr)] is
    [KdfRK(old RK, DH(old DHs, mh.DH))]; [DHs] becomes [dhs]; and, the
    generation having succeeded, [(RK, CKs)] is
    [KdfRK(RK1, DH(dhs, mh.DH))] and the step returns no error.  (When the
    generation fails the step returns that error with [RK = RK1] and [CKs]
    as it was.)  The map reference, [MaxSkip] and the suite are not
    touched. *)
Theorem dhRatchet_step s mh dhs err :
  let RK1 := (Crypto.KdfRK (Crypto s) (RK s)
                (Crypto.DH (Crypto s) (DHs s) (MessageHeader.DH mh))).1 in
  let CKr1 := (Crypto.KdfRK (Crypto s) (RK s)
                 (Crypto.DH (Crypto s) (DHs s) (MessageHeader.DH mh))).2 in
  let RK2 := (Crypto.KdfRK (Crypto s) RK1
                (Crypto.DH (Crypto s) dhs (MessageHeader.DH mh))).1 in
  let CKs2 := (Crypto.KdfRK (Crypto s) RK1
                 (Crypto.DH (Crypto s) dhs (MessageHeader.DH mh))).2 in
  let r := (dhRatchet s mh (dhs, err)).1 in
  let s' := (dhRatchet s mh (dhs, err)).2 in
  PN s' = Ns s /\ Ns s' = 0 /\ Nr s' = 0 /\
  DHr s' = MessageHeader.DH mh /\
  CKr s' = CKr1 /\
  DHs s' = dhs /\
  match err with
  | None => r = None /\ RK s' = RK2 /\ CKs s' = CKs2
  | Some e => r = Some (ErrGenerateDH e) /\ RK s' = RK1 /\ CKs s' = CKs s
  end /\
  MkSkipped s' = MkSkipped s /\ MaxSkip s' = MaxSkip s /\ Crypto s' = Crypto s.
Proof.
  unfold dhRatchet. simpl.
  destruct (Crypto.KdfRK (Crypto s) (RK s)
              (Crypto.DH (Crypto s) (DHs s) (MessageHeader.DH mh))) as [rk1 ckr1].
  simpl. destruct err as [e|]; simpl.
  - repeat split.
  - destruct (Crypto.KdfRK (Crypto s) rk1
                (Crypto.DH (Crypto s) dhs (MessageHeader.DH mh))) as [rk2 cks2].
    simpl. repeat split.
Qed.

(** ** [skipMessageKeys] *)

Lemma set_Nr_set_CKr_id s : set_Nr (Nr s) (set_CKr (CKr s) s) = s.
Proof. by destruct s. Qed.

(** The loop leaves alone every field but [CKr] and [Nr], whatever the
    fuel. *)
Lemma skip_loop_fields n : forall s h until,
  let s' := (skip_loop n s h until).1 in
  RK s' = RK s /\ DHr s' = DHr s /\ DHs s' = DHs s /\ CKs s' = CKs s /\
  Ns s' = Ns s /\ PN s' = PN s /\ MkSkipped s' = MkSkipped s /\
  MaxSkip s' = MaxSkip s /\ Crypto s' = Crypto s.
Proof.
  induction n as [|n IH]; intros s h until; simpl; [by repeat split|].
  destruct (Nr s <? until); [|by repeat split].
  destruct (Crypto.KdfCK (Crypto s) (CKr s)) as [ckr mk]. simpl.
  apply (IH (set_Nr _ (set_CKr ckr s))).
Qed.

(** The loop writes to the session's own map only. *)
Lemma skip_loop_other_loc n : forall s h until l,
  l <> MkSkipped s -> (skip_loop n s h until).2 !! l = h !! l.
Proof.
  induction n as [|n IH]; intros s h until l Hl; simpl; [done|].
  destruct (Nr s <? until); [|done].
  destruct (Crypto.KdfCK (Crypto s) (CKr s)) as [ckr mk]. simpl.
  rewrite IH by done. apply map_store_other_loc. congruence.
Qed.

(** The loop, started [n] below [until] with exactly [n] rounds of fuel:
    it stops with [Nr = until], the chain key advanced [n] times, and the
    [n] message keys of the chain stored under [(DHr, Nr), ...,
    (DHr, until - 1)]; no other entry is written. *)
Lemma skip_loop_run n : forall s h until,
  0 <= Nr s -> until < uint_modulus -> Nr s + Z.of_nat n = until ->
  let s' := (skip_loop n s h until).1 in
  let h' := (skip_loop n s h until).2 in
  s' = set_Nr until (set_CKr (chain_key (Crypto s) (CKr s) n) s) /\
  (forall j, (j < n)%nat ->
     map_lookup h' (MkSkipped s) (skippedKey (DHr s) (Nr s + Z.of_nat j))
       = Some (chain_message_key (Crypto s) (CKr s) j)) /\
  (forall k, (forall j, (j < n)%nat -> k <> skippedKey (DHr s) (Nr s + Z.of_nat j)) ->
     map_lookup h' (MkSkipped s) k = map_lookup h (MkSkipped s) k) /\
  ((forall j, (j < n)%nat ->
      map_lookup h (MkSkipped s) (skippedKey (DHr s) (Nr s + Z.of_nat j)) = None) ->
   size (h' !!! (MkSkipped s)) = (size (h !!! (MkSkipped s)) + n)%nat).
Proof.
  induction n as [|n IH]; intros s h until Hnr Hu Hsum; simpl.
  - replace until with (Nr s) by lia. rewrite set_Nr_set_CKr_id.
    repeat split; intros; try lia; try done.
  - assert (Hlt : (Nr s <? until) = true) by (apply Z.ltb_lt; lia).
    rewrite Hlt.
    destruct (Crypto.KdfCK (Crypto s) (CKr s)) as [ckr mk] eqn:Hkdf. simpl.
    assert (Hinc : uadd (Nr s) 1 = Nr s + 1) by (apply uadd_no_overflow; lia).
    rewrite Hinc.
    set (s2 := set_Nr (Nr s + 1) (set_CKr ckr s)).
    set (h1 := map_store h (MkSkipped s) (skippedKey (DHr s) (Nr s)) mk).
    destruct (IH s2 h1 until) as (Hs & Hin & Hout & Hsize);
      [simpl; lia | done | simpl; lia |].
    simpl in Hs, Hin, Hout, Hsize.
    assert (Hfirst : forall j, skippedKey (DHr s) (Nr s)
                       <> skippedKey (DHr s) (Nr s + 1 + Z.of_nat j)).
    { intros j Heq. apply skippedKey_inj_index in Heq. lia. }
    split; [|split; [|split]].
    + rewrite Hs. unfold s2. by destruct s.
    + intros [|j] Hj.
      * rewrite Z.add_0_r, Hout.
        -- unfold h1. rewrite map_lookup_store_eq.
           unfold chain_message_key. simpl. by rewrite Hkdf.
        -- intros j' _. apply Hfirst.
      * replace (Nr s + Z.of_nat (S j)) with (Nr s + 1 + Z.of_nat j) by lia.
        rewrite Hin by lia. unfold chain_message_key. simpl. by rewrite Hkdf.
    + intros k Hk. rewrite Hout.
      * unfold h1. apply map_lookup_store_ne.
        specialize (Hk 0%nat). rewrite Z.add_0_r in Hk.
        intros Heq. apply Hk; [lia | done].
      * intros j Hj.
        replace (Nr s + 1 + Z.of_nat j) with (Nr s + Z.of_nat (S j)) by lia.
        apply Hk. lia.
    + intros Hfree. rewrite Hsize.
      * unfold h1, map_store, heap in *. rewrite lookup_total_insert_eq.
        rewrite map_size_insert_None; [lia|].
        specialize (Hfree 0%nat). rewrite Z.add_0_r in Hfree.
        apply Hfree. lia.
      * intros j Hj. unfold h1. rewrite map_lookup_store_ne by apply Hfirst.
        replace (Nr s + 1 + Z.of_nat j) with (Nr s + Z.of_nat (S j)) by lia.
        apply Hfree. lia.
Qed.

(** When the guard of [skipMessageKeys] lets a target above [Nr] through,
    the sum [Nr + MaxSkip] has not wrapped. *)
Lemma skip_guard_no_overflow (nr maxskip until : Z) :
  is_uint nr -> is_uint maxskip -> nr < until -> until <= uadd nr maxskip ->
  until - nr <= maxskip.
Proof.
  unfold is_uint, uadd, uint_wrap, uint_modulus. intros Hn Hm Hlt Hle.
  destruct (Z_lt_ge_dec (nr + maxskip) (2 ^ 64)) as [Hs|Hs].
  - rewrite Z.mod_small in Hle by lia. lia.
  - replace (nr + maxskip) with ((nr + maxskip - 2 ^ 64) + 1 * 2 ^ 64) in Hle by lia.
    rewrite Z.mod_add in Hle by lia.
    rewrite Z.mod_small in Hle by lia. lia.
Qed.

(** A target at or below the receiving counter: the subroutine returns at
    once, without an error and without a change. *)
Lemma skipMessageKeys_nothing_to_skip s h until :
  is_uint (Nr s) -> until <= Nr s ->
  until <= uadd (Nr s) (MaxSkip s) ->
  skipMessageKeys s h until = (None, s, h).
Proof.
  intros _ Hle Hguard. unfold skipMessageKeys.
  replace (uadd (Nr s) (MaxSkip s) <? until) with false
    by (symmetry; apply Z.ltb_ge; lia).
  replace (Z.to_nat (until - Nr s)) with 0%nat by lia. reflexivity.
Qed.

(** The fuel given to the loop is enough: whenever [skipMessageKeys]
    returns without an error, the loop condition [Nr < until] is false. *)
Lemma skipMessageKeys_loop_exits s h until s' h' :
  is_uint (Nr s) -> is_uint until ->
  skipMessageKeys s h until = (None, s', h') ->
  until <= Nr s'.
Proof.
  intros Hnr Hu. unfold skipMessageKeys.
  destruct (Z.ltb_spec (uadd (Nr s) (MaxSkip s)) until) as [|Hguard];
    [discriminate|].
  destruct (Z_le_gt_dec (Nr s) until) as [Hle|Hgt].
  - destruct (skip_loop_run (Z.to_nat (until - Nr s)) s h until) as (Hs & _);
      [apply Hnr | apply Hu | lia |].
    destruct (skip_loop _ s h until) as [s1 h1]. simpl in Hs.
    intros [= <- _]. rewrite Hs. simpl. lia.
  - replace (Z.to_nat (until - Nr s)) with 0%nat by lia. simpl.
    intros [= <- _]. lia.
Qed.

(** C6 (as amended).  Let the counters be Go [uint]s, let the target
    [until] be at or above the receiving counter [Nr], and let the guard of
    the subroutine pass ([until <= Nr + MaxSkip], the sum taken as the code
    takes it, on [uint]).  Then [skipMessageKeys] returns no error;
    afterwards [Nr = until], [CKr] is the old chain key advanced
    [until - Nr] times and no other field has changed; for every index [i]
    with [Nr <= i < until] the map holds, under the key of [(DHr, i)], the
    message key of position [i] of the chain; these [until - Nr] keys are
    pairwise distinct; every other entry and every other map is as before;
    so the map has grown by exactly [until - Nr] entries when none of those
    keys was in it. *)
Theorem skipMessageKeys_stores_chain s h until :
  is_uint (Nr s) ->
  is_uint until ->
  Nr s <= until ->
  until <= uadd (Nr s) (MaxSkip s) ->
  let n := Z.to_nat (until - Nr s) in
  let l := MkSkipped s in
  exists s' h',
    skipMessageKeys s h until = (None, s', h') /\
    Nr s' = until /\
    CKr s' = chain_key (Crypto s) (CKr s) n /\
    s' = set_Nr until (set_CKr (chain_key (Crypto s) (CKr s) n) s) /\
    (forall i, Nr s <= i < until ->
       map_lookup h' l (skippedKey (DHr s) i)
         = Some (chain_message_key (Crypto s) (CKr s) (Z.to_nat (i - Nr s)))) /\
    (forall i j, skippedKey (DHr s) i = skippedKey (DHr s) j -> i = j) /\
    (forall k, (forall i, Nr s <= i < until -> k <> skippedKey (DHr s) i) ->
       map_lookup h' l k = map_lookup h l k) /\
    ((forall i, Nr s <= i < until -> map_lookup h l (skippedKey (DHr s) i) = None) ->
       size (h' !!! l) = (size (h !!! l) + n)%nat) /\
    (forall l', l' <> l -> h' !! l' = h !! l').
Proof.
  intros [Hnr0 _] [_ Hu] Hle Hguard n l.
  unfold skipMessageKeys.
  assert (Hg : (uadd (Nr s) (MaxSkip s) <? until) = false) by (apply Z.ltb_ge; lia).
  rewrite Hg. fold n.
  destruct (skip_loop_run n s h until) as (Hs & Hin & Hout & Hsize);
    [done | done | unfold n; lia |].
  simpl in Hs, Hin, Hout, Hsize.
  pose proof (skip_loop_other_loc n s h until) as Hother.
  destruct (skip_loop n s h until) as [s' h'] eqn:Hloop. simpl in *.
  exists s', h'. split; [done|]. subst s'.
  split; [done|]. split; [done|]. split; [done|].
  split; [|split; [|split; [|split]]].
  - intros i Hi.
    replace i with (Nr s + Z.of_nat (Z.to_nat (i - Nr s))) at 1 by lia.
    apply Hin. unfold n. lia.
  - apply skippedKey_inj_index.
  - intros k Hk. apply Hout. intros j Hj. apply Hk. unfold n in Hj. lia.
  - intros Hfree. apply Hsize. intros j Hj. apply Hfree. unfold n in Hj. lia.
  - intros l' Hl'. by apply Hother.
Qed.

(** ** The main path of [RatchetDecrypt] *)

(** C4.  On a session whose [DHr] is the [DH] of the incoming header and
    whose map has no entry for [(header.DH, header.N)], [RatchetDecrypt]
    fails with the too-many-skipped error exactly when
    [Nr + MaxSkip < header.N] (the comparison of the code, on [uint]), that
    is, the sum not overflowing, exactly when more than [MaxSkip] keys lie
    between [Nr] and [header.N]; and it then returns before any key is
    derived or stored: the struct and the whole store are returned as they
    were. *)
Theorem RatchetDecrypt_too_many_skipped s h m ad gen :
  MessageHeader.DH (Header m) = DHr s ->
  map_lookup h (MkSkipped s) (message_key m) = None ->
  let r := RatchetDecrypt EncodeWithAD s h m ad gen in
  (is_too_many_skipped r.1.1.2 = true
     <-> uadd (Nr s) (MaxSkip s) < MessageHeader.N (Header m)) /\
  (0 <= Nr s -> 0 <= MaxSkip s -> Nr s + MaxSkip s < uint_modulus ->
     (is_too_many_skipped r.1.1.2 = true
        <-> MaxSkip s < MessageHeader.N (Header m) - Nr s)) /\
  (uadd (Nr s) (MaxSkip s) < MessageHeader.N (Header m) ->
     r = (nil_slice,
          Some (ErrSkipCurrent
                  (ErrTooManyMessages (usub (MessageHeader.N (Header m)) (Nr s)))),
          s, h)).
Proof.
  intros Hdh Hmiss. unfold RatchetDecrypt.
  rewrite (trySkippedMessageKeys_miss _ _ _ _ Hmiss). simpl.
  unfold ratchet_if_new_key.
  destruct (decide (MessageHeader.DH (Header m) <> DHr s)) as [Hne|_]; [done|].
  unfold skipMessageKeys.
  destruct (Z.ltb_spec (uadd (Nr s) (MaxSkip s)) (MessageHeader.N (Header m)))
    as [Hlt|Hge].
  - simpl. split; [split; done|]. split; [|done].
    intros H0 H1 H2. rewrite <- skip_guard_counts_keys by done. split; done.
  - destruct (skip_loop _ s h _) as [sc h1].
    destruct (Crypto.KdfCK (Crypto sc) (CKr sc)) as [ckr mk].
    destruct (Crypto.Decrypt _ mk _ _) as [p [e|]]; simpl;
      (split; [split; [done | lia]|]; split; [|lia];
       intros H0 H1 H2; rewrite <- skip_guard_counts_keys by done;
       split; [done | lia]).
Qed.

(** X1.  An error of [RatchetDecrypt] comes with a nil plaintext and with
    the struct [*s] as it was before the call ([*s = sc] is not reached). *)
Lemma RatchetDecrypt_error_struct s h m ad gen p e s' h' :
  RatchetDecrypt EncodeWithAD s h m ad gen = (p, Some e, s', h') ->
  p = nil_slice /\ s' = s.
Proof.
  unfold RatchetDecrypt.
  destruct (trySkippedMessageKeys EncodeWithAD s h m ad) as [[p0 [e0|]] h0].
  { intros [= <- _ <- _]. done. }
  destruct (not_nil p0); [discriminate|].
  destruct (ratchet_if_new_key s h0 (Header m) gen) as [[e1 h1]|[sc h1]].
  { intros [= <- _ <- _]. done. }
  destruct (skipMessageKeys sc h1 _) as [[[e2|] sc2] h2].
  { intros [= <- _ <- _]. done. }
  destruct (Crypto.KdfCK (Crypto sc2) (CKr sc2)) as [ckr mk].
  destruct (Crypto.Decrypt _ mk _ _) as [p3 [e3|]].
  - intros [= <- _ <- _]. done.
  - discriminate.
Qed.

(** ** Round trip on fresh sessions *)

(** C2.  Alice and Bob are constructed from the same non-zero shared key,
    Alice with Bob's ratchet public key ([WithRemoteKey]), Bob without a
    remote key.  The suite is a working one: both sides compute the same DH
    output, and [Decrypt] opens what [Encrypt] sealed under the same key
    and associated data; Alice's ratchet public key is a real key, not the
    all-zero value that stands for "no remote key yet"; and the key
    generation that Bob's ratchet step asks for succeeds.  Then for every
    plaintext and associated data, Bob's [RatchetDecrypt] of Alice's
    [RatchetEncrypt] succeeds and returns the bytes of the plaintext. *)
Theorem RatchetDecrypt_RatchetEncrypt_fresh
    crypto sharedKey dhsA dhsB dhsB' (hA hB : heap) plaintext ad :
  sharedKey <> zeroKey ->
  DHPair.PublicKey dhsA <> zeroKey ->
  Crypto.DH crypto dhsB (DHPair.PublicKey dhsA)
    = Crypto.DH crypto dhsA (DHPair.PublicKey dhsB) ->
  (forall mk p aad, exists p',
      Crypto.Decrypt crypto mk (Crypto.Encrypt crypto mk p aad) aad = (p', None) /\
      slice_bytes p' = slice_bytes p) ->
  exists A hA1 B hB1,
    New crypto sharedKey [WithRemoteKey (DHPair.PublicKey dhsB)] (dhsA, None) hA
      = (inl A, hA1) /\
    New crypto sharedKey [] (dhsB, None) hB = (inl B, hB1) /\
    exists p B' hB2,
      RatchetDecrypt EncodeWithAD B hB1
        (RatchetEncrypt EncodeWithAD A hA1 plaintext ad).1.1 ad (dhsB', None)
        = (p, None, B', hB2) /\
      slice_bytes p = slice_bytes plaintext.
Proof.
  intros Hsk HpubA Hdh Haead.
  unfold New. destruct (decide (sharedKey = zeroKey)) as [|_]; [done|].
  destruct (map_make hA) as [lA hA1] eqn:HmA.
  destruct (map_make hB) as [lB hB1] eqn:HmB.
  unfold apply_options, WithRemoteKey. simpl.
  destruct (Crypto.KdfRK crypto sharedKey
              (Crypto.DH crypto dhsA (DHPair.PublicKey dhsB))) as [rkA cksA] eqn:HkA.
  simpl.
  eexists _, hA1, _, hB1. split; [reflexivity|]. split; [reflexivity|].
  unfold RatchetEncrypt. simpl.
  destruct (Crypto.KdfCK crypto cksA) as [cksA1 mk] eqn:Hck. simpl.
  unfold RatchetDecrypt.
  rewrite trySkippedMessageKeys_miss; cycle 1.
  { simpl. pose proof (map_make_empty hB) as He. rewrite HmB in He. apply He. }
  simpl. unfold ratchet_if_new_key. simpl.
  destruct (decide (DHPair.PublicKey dhsA <> zeroKey)) as [_|Hn]; [|done].
  unfold skipMessageKeys. simpl.
  unfold dhRatchet. simpl. rewrite Hdh, HkA. simpl.
  destruct (Crypto.KdfRK crypto rkA
              (Crypto.DH crypto dhsB' (DHPair.PublicKey dhsA))) as [rkB cksB].
  simpl. rewrite Hck. simpl.
  destruct (Haead mk plaintext
              (EncodeWithAD
                 {| MessageHeader.DH := DHPair.PublicKey dhsA;
                    MessageHeader.N := 0; MessageHeader.PN := 0 |} ad))
    as (p' & Hopen & Hbytes).
  rewrite Hopen. eauto.
Qed.

End EngineProperties.

(** ** [New] *)

(** C9.  [New] rejects the all-zero shared key with the configuration
    error, whatever the options.  For a non-zero shared key (and a key
    generation that succeeds with [dhs]) it yields a session with [RK],
    [CKs] and [CKr] all equal to the shared key, [DHs = dhs], a fresh and
    empty [MkSkipped], [MaxSkip = 1000], [Ns = Nr = PN = 0] and [DHr] the
    all-zero key; with [WithRemoteKey(dhr)] the session has in addition
    [DHr = dhr] and [(RK, CKs) = KdfRK(sharedKey, DH(DHs, dhr))]. *)
Theorem New_initial_state crypto sharedKey dhs dhr (h : heap) :
  sharedKey <> zeroKey ->
  let l := (map_make h).1 in
  let h' := (map_make h).2 in
  let k := Crypto.KdfRK crypto sharedKey (Crypto.DH crypto dhs dhr) in
  (forall opts gen, New crypto zeroKey opts gen h = (inr ErrZeroSharedKey, h)) /\
  New crypto sharedKey [] (dhs, None) h =
    (inl {| RK := sharedKey; DHr := zeroKey; DHs := dhs;
            CKs := sharedKey; CKr := sharedKey;
            Ns := 0; Nr := 0; PN := 0;
            MkSkipped := l; MaxSkip := 1000; Crypto := crypto |}, h') /\
  New crypto sharedKey [WithRemoteKey dhr] (dhs, None) h =
    (inl {| RK := k.1; DHr := dhr; DHs := dhs;
            CKs := k.2; CKr := sharedKey;
            Ns := 0; Nr := 0; PN := 0;
            MkSkipped := l; MaxSkip := 1000; Crypto := crypto |}, h') /\
  (forall key, map_lookup h' l key = None) /\
  h !! l = None.
Proof.
  intros Hsk l h' k.
  split; [|split; [|split; [|split]]].
  - intros opts gen. unfold New.
    destruct (decide (zeroKey = zeroKey)) as [_|Hne]; [reflexivity | done].
  - unfold New. destruct (decide (sharedKey = zeroKey)) as [|_]; [done|].
    reflexivity.
  - unfold New. destruct (decide (sharedKey = zeroKey)) as [|_]; [done|].
    unfold apply_options, WithRemoteKey. simpl. fold k.
    by destruct k.
  - apply map_make_empty.
  - apply map_make_fresh.
Qed.

(** ** The engine on the concrete suite *)

Lemma toy_alice_New f :
  New (toy_suite f) toy_shared_key
    [WithRemoteKey (DHPair.PublicKey (toy_pair x0b))] (toy_pair x0a, None) ∅
  = (inl (toy_alice f), toy_store).
Proof. destruct f; vm_compute; reflexivity. Qed.

Lemma toy_bob_New f :
  New (toy_suite f) toy_shared_key [] (toy_pair x0b, None) ∅
  = (inl (toy_bob f), toy_store).
Proof. destruct f; vm_compute; reflexivity. Qed.

(** [Decrypt] of the concrete suite opens what its [Encrypt] sealed. *)
Lemma toy_suite_opens f mk p aad :
  exists p',
    Crypto.Decrypt (toy_suite f) mk (Crypto.Encrypt (toy_suite f) mk p aad) aad
      = (p', None) /\
    slice_bytes p' = slice_bytes p.
Proof.
  simpl. rewrite take_app_length, drop_app_length.
  rewrite decide_True by reflexivity.
  destruct (slice_bytes p) as [|b bs] eqn:Hp.
  - destruct f; eexists; split; reflexivity.
  - eexists; split; reflexivity.
Qed.

(** Witness of [RatchetDecrypt_RatchetEncrypt_fresh]: Alice and Bob on the
    concrete suite, the plaintext ["hi"]. *)
Lemma RatchetDecrypt_RatchetEncrypt_fresh_witness :
  toy_shared_key <> zeroKey /\
  DHPair.PublicKey (toy_pair x0a) <> zeroKey /\
  Crypto.DH (toy_suite false) (toy_pair x0b) (DHPair.PublicKey (toy_pair x0a))
    = Crypto.DH (toy_suite false) (toy_pair x0a) (DHPair.PublicKey (toy_pair x0b)) /\
  exists A hA1 B hB1,
    New (toy_suite false) toy_shared_key
      [WithRemoteKey (DHPair.PublicKey (toy_pair x0b))] (toy_pair x0a, None) ∅
      = (inl A, hA1) /\
    New (toy_suite false) toy_shared_key [] (toy_pair x0b, None) ∅ = (inl B, hB1) /\
    exists p B' hB2,
      RatchetDecrypt toy_encode B hB1
        (RatchetEncrypt toy_encode A hA1 (mk_slice [x68; x69]) nil_slice).1.1
        nil_slice (toy_pair x0c, None)
        = (p, None, B', hB2) /\
      slice_bytes p = slice_bytes (mk_slice [x68; x69]).
Proof.
  split; [discriminate|]. split; [discriminate|]. split; [reflexivity|].
  apply (RatchetDecrypt_RatchetEncrypt_fresh toy_encode (toy_suite false)
           toy_shared_key (toy_pair x0a) (toy_pair x0b) (toy_pair x0c) ∅ ∅
           (mk_slice [x68; x69]) nil_slice).
  - discriminate.
  - discriminate.
  - reflexivity.
  - apply toy_suite_opens.
Defined.

(** Witness of [RatchetDecrypt_too_many_skipped]: a session at [Nr = 5]
    with [MaxSkip = 1000] receives number 2000 of its chain. *)
Lemma RatchetDecrypt_too_many_skipped_witness :
  MessageHeader.DH (Header toy_far_message) = DHr toy_receiver_at_five /\
  map_lookup toy_store (MkSkipped toy_receiver_at_five)
    (message_key toy_far_message) = None /\
  uadd (Nr toy_receiver_at_five) (MaxSkip toy_receiver_at_five)
    < MessageHeader.N (Header toy_far_message) /\
  RatchetDecrypt toy_encode toy_receiver_at_five toy_store toy_far_message
    nil_slice (toy_pair x0c, None)
  = (nil_slice, Some (ErrSkipCurrent (ErrTooManyMessages 1995)),
     toy_receiver_at_five, toy_store).
Proof.
  split; [reflexivity|]. split; [reflexivity|]. split; [reflexivity|].
  apply (RatchetDecrypt_too_many_skipped toy_encode toy_receiver_at_five
           toy_store toy_far_message nil_slice (toy_pair x0c, None));
    reflexivity.
Defined.

(** Witness of [skipMessageKeys_stores_chain]: from [Nr = 5] to 8. *)
Lemma skipMessageKeys_stores_chain_witness :
  is_uint (Nr toy_receiver_at_five) /\
  is_uint 8 /\
  Nr toy_receiver_at_five <= 8 /\
  8 <= uadd (Nr toy_receiver_at_five) (MaxSkip toy_receiver_at_five) /\
  exists s' h',
    skipMessageKeys toy_receiver_at_five toy_store 8 = (None, s', h') /\
    Nr s' = 8 /\
    size (h' !!! (MkSkipped toy_receiver_at_five)) = 3%nat.
Proof.
  assert (H5 : is_uint (Nr toy_receiver_at_five)) by (split; [discriminate | reflexivity]).
  assert (H8 : is_uint 8) by (split; [discriminate | reflexivity]).
  assert (Hle : Nr toy_receiver_at_five <= 8) by discriminate.
  assert (Hg : 8 <= uadd (Nr toy_receiver_at_five) (MaxSkip toy_receiver_at_five))
    by discriminate.
  split; [exact H5|]. split; [exact H8|]. split; [exact Hle|]. split; [exact Hg|].
  destruct (skipMessageKeys_stores_chain toy_receiver_at_five toy_store 8 H5 H8 Hle Hg)
    as (s' & h' & Hrun & Hnr & _ & _ & _ & _ & _ & Hsize & _).
  exists s', h'. split; [exact Hrun|]. split; [exact Hnr|].
  rewrite Hsize; [reflexivity|].
  intros i _. reflexivity.
Defined.

(** Counterexample to C6 as stated: the target 3 lies below the receiving
    counter 5, and [5 + 1000 >= 3].  The subroutine returns no error, but
    it leaves [Nr] at 5 (not at the target) and stores nothing. *)
Lemma skipMessageKeys_target_below_counter :
  Nr toy_receiver_at_five + MaxSkip toy_receiver_at_five >= 3 /\
  skipMessageKeys toy_receiver_at_five toy_store 3
    = (None, toy_receiver_at_five, toy_store) /\
  Nr toy_receiver_at_five = 5 /\
  Nr toy_receiver_at_five <> 3.
Proof.
  split; [discriminate|]. split; [reflexivity|]. split; [reflexivity | discriminate].
Qed.

(** Witness of [New_initial_state]. *)
Lemma New_initial_state_witness :
  toy_shared_key <> zeroKey /\
  New (toy_suite false) toy_shared_key
    [WithRemoteKey (DHPair.PublicKey (toy_pair x0b))] (toy_pair x0a, None) ∅
  = (inl (toy_alice false), toy_store).
Proof.
  split; [discriminate|].
  destruct (New_initial_state (toy_suite false) toy_shared_key (toy_pair x0a)
              (DHPair.PublicKey (toy_pair x0b)) ∅) as (_ & _ & Hremote & _).
  - discriminate.
  - rewrite Hremote. reflexivity.
Defined.

(** Witness of [RatchetDecrypt_skipped_path_frame]: Bob has received the
    second message first and now receives the first one; its (empty)
    plaintext comes back as an empty non-nil slice. *)
Lemma RatchetDecrypt_skipped_path_frame_witness :
  let b := (toy_bob_after_second false).1 in
  let hb := (toy_bob_after_second false).2 in
  let m0 := (toy_sent false).1 in
  let mk := replicate 32 x9e in
  map_lookup hb (MkSkipped b) (message_key m0) = Some mk /\
  aead_open toy_encode b mk m0 nil_slice = (mk_slice [], None) /\
  not_nil (mk_slice []) = true /\
  exists h',
    RatchetDecrypt toy_encode b hb m0 nil_slice (toy_pair x0d, None)
      = (mk_slice [], None, b, h') /\
    map_lookup h' (MkSkipped b) (message_key m0) = None.
Proof.
  intros b hb m0 mk.
  assert (Hk : map_lookup hb (MkSkipped b) (message_key m0) = Some mk)
    by (vm_compute; reflexivity).
  assert (Hd : aead_open toy_encode b mk m0 nil_slice = (mk_slice [], None))
    by (vm_compute; reflexivity).
  split; [exact Hk|]. split; [exact Hd|]. split; [reflexivity|].
  destruct (RatchetDecrypt_skipped_path_frame toy_encode b hb m0 nil_slice
              (toy_pair x0d, None) mk (mk_slice []) Hk Hd eq_refl)
    as (s' & h' & Hrun & -> & _ & Hgone & _).
  exists h'. split; [exact Hrun | exact Hgone].
Defined.

(** Witness of [RatchetDecrypt_error_struct]: the changed second message
    at fresh Bob. *)
Lemma RatchetDecrypt_error_struct_witness :
  let r := RatchetDecrypt toy_encode (toy_bob false) toy_store (toy_tampered false)
             nil_slice (toy_pair x0c, None) in
  r = (nil_slice, Some (ErrFailedDecrypt (ErrPrimitive "invalid signature")),
       r.1.2, r.2) /\
  r.1.1.1 = nil_slice /\
  r.1.2 = toy_bob false.
Proof.
  intros r.
  assert (Hr : r = (nil_slice,
                    Some (ErrFailedDecrypt (ErrPrimitive "invalid signature")),
                    r.1.2, r.2)) by (vm_compute; reflexivity).
  split; [exact Hr|].
  destruct (RatchetDecrypt_error_struct toy_encode (toy_bob false) toy_store
              (toy_tampered false) nil_slice (toy_pair x0c, None)
              nil_slice _ r.1.2 r.2 Hr) as [_ Hs].
  split; [vm_compute; reflexivity | exact Hs].
Defined.

(** Witness of [RatchetDecrypt_skipped_reject]: Bob holds the key of the
    first message, which reaches him with a changed ciphertext. *)
Lemma RatchetDecrypt_skipped_reject_witness :
  let b := (toy_bob_after_second false).1 in
  let hb := (toy_bob_after_second false).2 in
  let m := toy_tampered_first false in
  let mk := replicate 32 x9e in
  map_lookup hb (MkSkipped b) (message_key m) = Some mk /\
  aead_open toy_encode b mk m nil_slice
    = (nil_slice, Some (ErrPrimitive "invalid signature")) /\
  RatchetDecrypt toy_encode b hb m nil_slice (toy_pair x0d, None)
    = (nil_slice,
       Some (ErrTrySkipped (ErrCantDecryptMessage (ErrPrimitive "invalid signature"))),
       b, hb).
Proof.
  intros b hb m mk.
  assert (Hk : map_lookup hb (MkSkipped b) (message_key m) = Some mk)
    by (vm_compute; reflexivity).
  assert (Hd : aead_open toy_encode b mk m nil_slice
               = (nil_slice, Some (ErrPrimitive "invalid signature")))
    by (vm_compute; reflexivity).
  split; [exact Hk|]. split; [exact Hd|].
  exact (RatchetDecrypt_skipped_reject toy_encode b hb m nil_slice
           (toy_pair x0d, None) mk nil_slice _ Hk Hd).
Defined.

(** ** Where the code departs from the specification *)

(** C1 (the code departs from the claim).  Bob is fresh; the second message
    of Alice reaches him with a changed ciphertext.  [RatchetDecrypt]
    returns an error and the struct of Bob's session is as before, but his
    map [MkSkipped], empty before the call, now holds the key that was
    derived for the first message: the shadow copy shares the map with the
    session. *)
Theorem RatchetDecrypt_error_keeps_skipped_key :
  let b := toy_bob false in
  let key := skippedKey (replicate 32 x0a) 0 in
  let r := RatchetDecrypt toy_encode b toy_store (toy_tampered false) nil_slice
             (toy_pair x0c, None) in
  map_lookup toy_store (MkSkipped b) key = None /\
  r.1.1 = (nil_slice, Some (ErrFailedDecrypt (ErrPrimitive "invalid signature"))) /\
  r.1.2 = b /\
  map_lookup r.2 (MkSkipped b) key = Some (replicate 32 x9e) /\
  r.2 <> toy_store.
Proof.
  intros b key r.
  assert (Hkey : map_lookup r.2 (MkSkipped b) key = Some (replicate 32 x9e))
    by (vm_compute; reflexivity).
  split; [reflexivity|]. split; [vm_compute; reflexivity|].
  split; [vm_compute; reflexivity|]. split; [exact Hkey|].
  intros Heq. rewrite Heq in Hkey. discriminate Hkey.
Qed.

(** C3 (the code departs from the claim).  The suite returns the nil slice
    for an empty plaintext.  Bob has received the second message first, so
    his map holds the key of the first one, whose plaintext is empty.  The
    stored key opens that message without error, yet [RatchetDecrypt]
    takes the nil plaintext for "no skipped key", goes on to the receiving
    chain, and returns an error; the entry is gone from the map all the
    same. *)
Theorem RatchetDecrypt_skipped_nil_plaintext :
  let b := (toy_bob_after_second true).1 in
  let hb := (toy_bob_after_second true).2 in
  let m0 := (toy_sent true).1 in
  let r := RatchetDecrypt toy_encode b hb m0 nil_slice (toy_pair x0d, None) in
  map_lookup hb (MkSkipped b) (message_key m0) = Some (replicate 32 x9e) /\
  aead_open toy_encode b (replicate 32 x9e) m0 nil_slice = (nil_slice, None) /\
  r.1.1 = (nil_slice, Some (ErrFailedDecrypt (ErrPrimitive "invalid signature"))) /\
  r.1.2 = b /\
  map_lookup r.2 (MkSkipped b) (message_key m0) = None.
Proof.
  intros b hb m0 r.
  split; [vm_compute; reflexivity|]. split; [vm_compute; reflexivity|].
  split; [vm_compute; reflexivity|]. split; vm_compute; reflexivity.
Qed.

(** With a suite that returns an empty non-nil slice the same delivery
    succeeds. *)
Lemma RatchetDecrypt_skipped_empty_plaintext :
  let b := (toy_bob_after_second false).1 in
  let hb := (toy_bob_after_second false).2 in
  let m0 := (toy_sent false).1 in
  (RatchetDecrypt toy_encode b hb m0 nil_slice (toy_pair x0d, None)).1.1
    = (mk_slice [], None).
Proof. vm_compute. reflexivity. Qed.

(** C10 (the code departs from the claim).  The suite returns the nil slice
    for an empty plaintext.  Bob has received Alice's first message
    ([Nr = 1]); a forged message numbered 2 has been refused, which left
    the key of position 1 in his map while his counter stayed at 1; now
    Alice's genuine second message, whose plaintext is empty, arrives.  The
    map holds a key under [(header.DH, header.N)] and that key opens the
    message without error, and [RatchetDecrypt] succeeds.  But the nil
    plaintext is taken for "no skipped key": the call goes on to the
    receiving chain, and what it commits is a chain step: [Nr] goes from 1
    to 2 and [CKr] is advanced. *)
Theorem RatchetDecrypt_skipped_nil_advances_chain :
  let b := (toy_bob_after_forged true).1 in
  let hb := (toy_bob_after_forged true).2 in
  let m1 := (toy_sent_empty_second true).2 in
  let r := RatchetDecrypt toy_encode b hb m1 nil_slice (toy_pair x0e, None) in
  map_lookup hb (MkSkipped b) (message_key m1) = Some (replicate 32 x9f) /\
  aead_open toy_encode b (replicate 32 x9f) m1 nil_slice = (nil_slice, None) /\
  r.1.1 = (nil_slice, None) /\
  Nr b = 1 /\ Nr r.1.2 = 2 /\
  CKr b = replicate 32 x1f /\ CKr r.1.2 = replicate 32 x20 /\
  map_lookup r.2 (MkSkipped b) (message_key m1) = None.
Proof.
  intros b hb m1 r.
  split; [vm_compute; reflexivity|]. split; [vm_compute; reflexivity|].
  split; [vm_compute; reflexivity|]. split; [vm_compute; reflexivity|].
  split; [vm_compute; reflexivity|]. split; [vm_compute; reflexivity|].
  split; vm_compute; reflexivity.
Qed.

(** * Further properties of the engine *)

(** ** More on [skippedKey] *)

Lemma hex_digit_inj (a b : N) :
  (a < 16)%N -> (b < 16)%N -> hex_digit a = hex_digit b -> a = b.
Proof.
  assert (Hcases : forall n : N, (n < 16)%N ->
            n = 0%N \/ n = 1%N \/ n = 2%N \/ n = 3%N \/ n = 4%N \/ n = 5%N \/
            n = 6%N \/ n = 7%N \/ n = 8%N \/ n = 9%N \/ n = 10%N \/ n = 11%N \/
            n = 12%N \/ n = 13%N \/ n = 14%N \/ n = 15%N) by (intros n Hn; lia).
  intros Ha Hb.
  destruct (Hcases a Ha) as [->|[->|[->|[->|[->|[->|[->|[->|[->|[->|[->|[->|[->|[->|[->| ->]]]]]]]]]]]]]]];
  destruct (Hcases b Hb) as [->|[->|[->|[->|[->|[->|[->|[->|[->|[->|[->|[->|[->|[->|[->| ->]]]]]]]]]]]]]]];
  simpl; intros Heq; first [reflexivity | discriminate Heq].
Qed.

(** A byte is determined by its two hexadecimal digits. *)
Lemma hex_digits_inj (b1 b2 : byte) :
  hex_digit (to_N b1 / 16)%N = hex_digit (to_N b2 / 16)%N ->
  hex_digit (to_N b1 mod 16)%N = hex_digit (to_N b2 mod 16)%N ->
  b1 = b2.
Proof.
  intros Hhi Hlo.
  pose proof (to_N_bounded b1) as H1. pose proof (to_N_bounded b2) as H2.
  apply hex_digit_inj in Hhi;
    [| apply N.Div0.div_lt_upper_bound; lia | apply N.Div0.div_lt_upper_bound; lia].
  apply hex_digit_inj in Hlo; [| apply N.mod_lt; lia | apply N.mod_lt; lia].
  assert (Heq : to_N b1 = to_N b2).
  { rewrite (N.div_mod (to_N b1) 16), (N.div_mod (to_N b2) 16) by lia.
    by rewrite Hhi, Hlo. }
  assert (Hs : Some b1 = Some b2) by (rewrite <- !of_to_N; by rewrite Heq).
  by injection Hs.
Qed.

(** Hexadecimal encodings of byte strings of one length, each followed by
    any text, are equal only for equal byte strings and equal texts. *)
Lemma EncodeToString_app_inj (dh1 : list byte) : forall (dh2 : list byte) (t1 t2 : string),
  length dh1 = length dh2 ->
  EncodeToString dh1 +:+ t1 = EncodeToString dh2 +:+ t2 ->
  dh1 = dh2 /\ t1 = t2.
Proof.
  induction dh1 as [|b1 dh1 IH]; intros [|b2 dh2] t1 t2 Hlen Heq;
    simpl in Hlen; try discriminate Hlen.
  - simpl in Heq. done.
  - simpl in Heq. injection Heq as Hhi Hlo Hrest.
    destruct (IH dh2 t1 t2) as [-> ->]; [lia | done |].
    by rewrite (hex_digits_inj b1 b2 Hhi Hlo).
Qed.

Lemma skippedKey_eq_inv (dh1 dh2 : Key) (n1 n2 : Z) :
  length dh1 = length dh2 ->
  skippedKey dh1 n1 = skippedKey dh2 n2 -> dh1 = dh2 /\ n1 = n2.
Proof.
  unfold skippedKey. intros Hlen Heq.
  destruct (EncodeToString_app_inj dh1 dh2 _ _ Hlen Heq) as [-> Hn].
  split; [reflexivity|]. by apply pretty_Z_inj in Hn.
Qed.

(** X3.  Two ratchet keys of one length (in the code both are [[32]byte])
    and two message numbers get the same map key from [skippedKey] only
    when the ratchet keys are equal and the numbers are equal: entries of
    different chains and of different positions never share a slot. *)
Theorem skippedKey_inj (dh1 dh2 : Key) (n1 n2 : Z) :
  length dh1 = length dh2 ->
  (skippedKey dh1 n1 = skippedKey dh2 n2 <-> dh1 = dh2 /\ n1 = n2).
Proof.
  intros Hlen. split.
  - by apply skippedKey_eq_inv.
  - by intros [-> ->].
Qed.

(** ** More on [skipMessageKeys] *)

(** Each round of the loop adds at most one entry to the session's map. *)
Lemma skip_loop_size n : forall s h until,
  (size ((skip_loop n s h until).2 !!! (MkSkipped s))
     <= size (h !!! (MkSkipped s)) + n)%nat.
Proof.
  induction n as [|n IH]; intros s h until; simpl; [lia|].
  destruct (Nr s <? until); [|simpl; lia].
  destruct (Crypto.KdfCK (Crypto s) (CKr s)) as [ckr mk]. simpl.
  etrans; [apply (IH (set_Nr _ (set_CKr ckr s)))|]. simpl.
  unfold map_store, heap in *. rewrite lookup_total_insert_eq, map_size_insert.
  destruct (_ !! _); simpl; lia.
Qed.

(** What a call of [skipMessageKeys] does once its guard has passed,
    whether the target lies above the receiving counter or not. *)
Lemma skipMessageKeys_ok s h until :
  is_uint (Nr s) -> is_uint until ->
  until <= uadd (Nr s) (MaxSkip s) ->
  let n := Z.to_nat (until - Nr s) in
  let l := MkSkipped s in
  exists h',
    skipMessageKeys s h until
      = (None, set_Nr (Z.max (Nr s) until)
                 (set_CKr (chain_key (Crypto s) (CKr s) n) s), h') /\
    (forall i, Nr s <= i < until ->
       map_lookup h' l (skippedKey (DHr s) i)
         = Some (chain_message_key (Crypto s) (CKr s) (Z.to_nat (i - Nr s)))) /\
    (forall k, (forall i, Nr s <= i < until -> k <> skippedKey (DHr s) i) ->
       map_lookup h' l k = map_lookup h l k) /\
    (size (h' !!! l) <= size (h !!! l) + n)%nat /\
    (forall l', l' <> l -> h' !! l' = h !! l').
Proof.
  intros Hnr Hu Hguard n l.
  destruct (Z_le_gt_dec (Nr s) until) as [Hle|Hgt].
  - unfold skipMessageKeys.
    replace (uadd (Nr s) (MaxSkip s) <? until) with false
      by (symmetry; apply Z.ltb_ge; lia).
    fold n.
    destruct (skip_loop_run n s h until) as (Hs & Hin & Hout & _);
      [apply Hnr | apply Hu | unfold n; lia |].
    pose proof (skip_loop_other_loc n s h until) as Hother.
    pose proof (skip_loop_size n s h until) as Hsize.
    destruct (skip_loop n s h until) as [s' h'] eqn:Hloop. simpl in *.
    exists h'. rewrite Z.max_r by lia. subst s'.
    split; [done|]. split; [|split; [|split; [done|]]].
    + intros i Hi.
      replace i with (Nr s + Z.of_nat (Z.to_nat (i - Nr s))) at 1 by lia.
      apply Hin. unfold n. lia.
    + intros k Hk. apply Hout. intros j Hj. apply Hk. unfold n in Hj. lia.
    + intros l' Hl'. by apply Hother.
  - exists h. rewrite skipMessageKeys_nothing_to_skip; [|done|lia|done].
    rewrite Z.max_l by lia.
    replace n with 0%nat by (unfold n; lia). simpl.
    rewrite set_Nr_set_CKr_id.
    split; [done|]. split; [intros i Hi; lia|]. split; [done|].
    split; [lia | done].
Qed.

(** X4.  [skipMessageKeys] either fails on its guard, and then it has
    returned the too-many-messages error with the count [until - Nr]
    without touching the session or the store; or it succeeds, and then
    the receiving counter has moved to the larger of its old value and the
    target, by at most [MaxSkip] positions, and the map has grown by at
    most [MaxSkip] entries. *)
Theorem skipMessageKeys_bounded s h until :
  is_uint (Nr s) -> is_uint (MaxSkip s) -> is_uint until ->
  let r := skipMessageKeys s h until in
  (uadd (Nr s) (MaxSkip s) < until ->
     r = (Some (ErrTooManyMessages (usub until (Nr s))), s, h)) /\
  (until <= uadd (Nr s) (MaxSkip s) ->
     r.1.1 = None /\
     Nr r.1.2 = Z.max (Nr s) until /\
     0 <= Nr r.1.2 - Nr s <= MaxSkip s /\
     (size (r.2 !!! (MkSkipped s))
        <= size (h !!! (MkSkipped s)) + Z.to_nat (MaxSkip s))%nat).
Proof.
  intros Hnr Hmax Hu r. split.
  - intros Hlt. unfold r, skipMessageKeys.
    replace (uadd (Nr s) (MaxSkip s) <? until) with true
      by (symmetry; apply Z.ltb_lt; lia).
    reflexivity.
  - intros Hguard.
    destruct (skipMessageKeys_ok s h until Hnr Hu Hguard)
      as (h' & Hrun & _ & _ & Hsize & _).
    unfold r. rewrite Hrun. simpl.
    assert (Hcount : Z.max (Nr s) until - Nr s <= MaxSkip s).
    { destruct (Z_le_gt_dec until (Nr s)) as [Hle|Hgt].
      - rewrite Z.max_l by lia. unfold is_uint in Hmax. lia.
      - rewrite Z.max_r by lia.
        apply skip_guard_no_overflow; [done | done | lia | done]. }
    split; [done|]. split; [done|]. split; [lia|].
    etrans; [apply Hsize|]. lia.
Qed.

Section EngineComposition.

Variable EncodeWithAD : MessageHeader.t -> AssociatedData -> slice.

(** ** [RatchetDecrypt] on the current receiving chain *)

Lemma chain_key_succ c ck n :
  chain_key c ck (S n) = (Crypto.KdfCK c (chain_key c ck n)).1.
Proof. revert ck. induction n as [|n IH]; intros ck; simpl; [done|]. by rewrite <- IH. Qed.

(** The receiving-chain path, whatever the outcome of the final
    decryption: the keys between [Nr] and [header.N] go into the map, the
    key of the next position is tried, and only a success commits. *)
Lemma RatchetDecrypt_on_chain s h m ad gen :
  MessageHeader.DH (Header m) = DHr s ->
  map_lookup h (MkSkipped s) (message_key m) = None ->
  is_uint (Nr s) -> is_uint (MessageHeader.N (Header m)) ->
  MessageHeader.N (Header m) <= uadd (Nr s) (MaxSkip s) ->
  let target := MessageHeader.N (Header m) in
  let n := Z.to_nat (target - Nr s) in
  let l := MkSkipped s in
  exists h',
    RatchetDecrypt EncodeWithAD s h m ad gen =
      match aead_open EncodeWithAD s (chain_message_key (Crypto s) (CKr s) n) m ad with
      | (p, None) =>
          (p, None,
           set_Nr (uadd (Z.max (Nr s) target) 1)
             (set_CKr (chain_key (Crypto s) (CKr s) (S n)) s), h')
      | (_, Some e) => (nil_slice, Some (ErrFailedDecrypt e), s, h')
      end /\
    (forall i, Nr s <= i < target ->
       map_lookup h' l (skippedKey (DHr s) i)
         = Some (chain_message_key (Crypto s) (CKr s) (Z.to_nat (i - Nr s)))) /\
    (forall k, (forall i, Nr s <= i < target -> k <> skippedKey (DHr s) i) ->
       map_lookup h' l k = map_lookup h l k) /\
    map_lookup h' l (message_key m) = None /\
    (forall l', l' <> l -> h' !! l' = h !! l').
Proof.
  intros Hdh Hmiss Hnr Hn Hguard target n l.
  destruct (skipMessageKeys_ok s h target Hnr Hn Hguard)
    as (h' & Hrun & Hin & Hout & _ & Hother).
  exists h'. split; [|split; [done|split; [done|split; [|done]]]].
  - rewrite chain_key_succ. unfold RatchetDecrypt.
    rewrite (trySkippedMessageKeys_miss _ _ _ _ _ Hmiss). simpl.
    unfold ratchet_if_new_key.
    destruct (decide (MessageHeader.DH (Header m) <> DHr s)) as [Hne|_]; [done|].
    fold target. rewrite Hrun. simpl. fold n.
    unfold aead_open, chain_message_key.
    destruct (Crypto.KdfCK (Crypto s) (chain_key (Crypto s) (CKr s) n)) as [ckr mk].
    simpl. destruct (Crypto.Decrypt _ mk _ _) as [p [e|]]; [done|].
    by destruct s.
  - rewrite Hout; [done|].
    intros i Hi Heq. unfold message_key in Heq. rewrite Hdh in Heq.
    apply skippedKey_inj_index in Heq. fold target in Heq. lia.
Qed.

(** X5.  A message of the current receiving chain ([header.DH = DHr])
    whose key is not in the map, within the skip window, and which the key
    of its position opens: [RatchetDecrypt] returns the plaintext; the
    receiving counter is one past the larger of [Nr] and [header.N], the
    chain key has advanced once per skipped position and once for the
    message, and no other field has changed; the keys of the skipped
    positions [Nr <= i < header.N] are in the map, every other entry is as
    before, and the map holds no key for the message itself. *)
Theorem RatchetDecrypt_chain_success s h m ad gen p :
  MessageHeader.DH (Header m) = DHr s ->
  map_lookup h (MkSkipped s) (message_key m) = None ->
  is_uint (Nr s) -> is_uint (MessageHeader.N (Header m)) ->
  MessageHeader.N (Header m) <= uadd (Nr s) (MaxSkip s) ->
  let target := MessageHeader.N (Header m) in
  let n := Z.to_nat (target - Nr s) in
  let l := MkSkipped s in
  aead_open EncodeWithAD s (chain_message_key (Crypto s) (CKr s) n) m ad = (p, None) ->
  exists h',
    RatchetDecrypt EncodeWithAD s h m ad gen =
      (p, None,
       set_Nr (uadd (Z.max (Nr s) target) 1)
         (set_CKr (chain_key (Crypto s) (CKr s) (S n)) s), h') /\
    (forall i, Nr s <= i < target ->
       map_lookup h' l (skippedKey (DHr s) i)
         = Some (chain_message_key (Crypto s) (CKr s) (Z.to_nat (i - Nr s)))) /\
    (forall k, (forall i, Nr s <= i < target -> k <> skippedKey (DHr s) i) ->
       map_lookup h' l k = map_lookup h l k) /\
    map_lookup h' l (message_key m) = None /\
    (forall l', l' <> l -> h' !! l' = h !! l').
Proof.
  intros Hdh Hmiss Hnr Hn Hguard target n l Hopen.
  destruct (RatchetDecrypt_on_chain s h m ad gen Hdh Hmiss Hnr Hn Hguard)
    as (h' & Hrun & Hrest).
  fold target n in Hrun. rewrite Hopen in Hrun. by exists h'.
Qed.

(** X6.  The same message when the key of its position does not open it:
    [RatchetDecrypt] returns the failed-to-decrypt error and the struct of
    the session is as before, but the map it shares with the shadow copy
    has already received the keys of the skipped positions
    [Nr <= i < header.N]; every other entry is as before. *)
Theorem RatchetDecrypt_chain_reject s h m ad gen p e :
  MessageHeader.DH (Header m) = DHr s ->
  map_lookup h (MkSkipped s) (message_key m) = None ->
  is_uint (Nr s) -> is_uint (MessageHeader.N (Header m)) ->
  MessageHeader.N (Header m) <= uadd (Nr s) (MaxSkip s) ->
  let target := MessageHeader.N (Header m) in
  let n := Z.to_nat (target - Nr s) in
  let l := MkSkipped s in
  aead_open EncodeWithAD s (chain_message_key (Crypto s) (CKr s) n) m ad = (p, Some e) ->
  exists h',
    RatchetDecrypt EncodeWithAD s h m ad gen
      = (nil_slice, Some (ErrFailedDecrypt e), s, h') /\
    (forall i, Nr s <= i < target ->
       map_lookup h' l (skippedKey (DHr s) i)
         = Some (chain_message_key (Crypto s) (CKr s) (Z.to_nat (i - Nr s)))) /\
    (forall k, (forall i, Nr s <= i < target -> k <> skippedKey (DHr s) i) ->
       map_lookup h' l k = map_lookup h l k) /\
    (forall l', l' <> l -> h' !! l' = h !! l').
Proof.
  intros Hdh Hmiss Hnr Hn Hguard target n l Hopen.
  destruct (RatchetDecrypt_on_chain s h m ad gen Hdh Hmiss Hnr Hn Hguard)
    as (h' & Hrun & Hin & Hout & _ & Hother).
  fold target n in Hrun. rewrite Hopen in Hrun. by exists h'.
Qed.

(** ** [RatchetDecrypt] on a new ratchet key *)

(** The session after a successful DH ratchet step on header [hd] with
    the generated pair [dhs]. *)
Lemma dhRatchet_ok s hd dhs :
  let c := Crypto s in
  let k1 := Crypto.KdfRK c (RK s) (Crypto.DH c (DHs s) (MessageHeader.DH hd)) in
  let k2 := Crypto.KdfRK c k1.1 (Crypto.DH c dhs (MessageHeader.DH hd)) in
  dhRatchet s hd (dhs, None) =
    (None,
     {| RK := k2.1; DHr := MessageHeader.DH hd; DHs := dhs; CKs := k2.2;
        CKr := k1.2; Ns := 0; Nr := 0; PN := Ns s;
        MkSkipped := MkSkipped s; MaxSkip := MaxSkip s; Crypto := c |}).
Proof.
  unfold dhRatchet. simpl.
  destruct (Crypto.KdfRK (Crypto s) (RK s) _) as [rk1 ckr1]. simpl.
  destruct (Crypto.KdfRK (Crypto s) rk1 _) as [rk2 cks2]. reflexivity.
Qed.

(** The block [if m.Header.DH != sc.DHr] once the guard of the first
    [skipMessageKeys] has passed: the keys left in the old chain, up to
    [header.PN], go into the map under the old [DHr]; then the ratchet
    step runs on the shadow. *)
Lemma ratchet_if_new_key_ok s h hd dhs gerr :
  MessageHeader.DH hd <> DHr s ->
  is_uint (Nr s) -> is_uint (MessageHeader.PN hd) ->
  MessageHeader.PN hd <= uadd (Nr s) (MaxSkip s) ->
  let c := Crypto s in
  let l := MkSkipped s in
  let k1 := Crypto.KdfRK c (RK s) (Crypto.DH c (DHs s) (MessageHeader.DH hd)) in
  let k2 := Crypto.KdfRK c k1.1 (Crypto.DH c dhs (MessageHeader.DH hd)) in
  exists h1,
    ratchet_if_new_key s h hd (dhs, gerr) =
      match gerr with
      | Some e => inl (ErrRatchetStep (ErrGenerateDH e), h1)
      | None =>
          inr ({| RK := k2.1; DHr := MessageHeader.DH hd; DHs := dhs; CKs := k2.2;
                  CKr := k1.2; Ns := 0; Nr := 0; PN := Ns s;
                  MkSkipped := l; MaxSkip := MaxSkip s; Crypto := c |}, h1)
      end /\
    (forall i, Nr s <= i < MessageHeader.PN hd ->
       map_lookup h1 l (skippedKey (DHr s) i)
         = Some (chain_message_key c (CKr s) (Z.to_nat (i - Nr s)))) /\
    (forall k, (forall i, Nr s <= i < MessageHeader.PN hd -> k <> skippedKey (DHr s) i) ->
       map_lookup h1 l k = map_lookup h l k) /\
    (forall l', l' <> l -> h1 !! l' = h !! l').
Proof.
  intros Hne Hnr Hpn Hguard c l k1 k2.
  destruct (skipMessageKeys_ok s h (MessageHeader.PN hd) Hnr Hpn Hguard)
    as (h1 & Hrun & Hin & Hout & _ & Hother).
  exists h1. split; [|done].
  unfold ratchet_if_new_key.
  destruct (decide (MessageHeader.DH hd <> DHr s)) as [_|Heq]; [|done].
  rewrite Hrun. destruct gerr as [e|].
  - unfold dhRatchet. simpl.
    by destruct (Crypto.KdfRK (Crypto s) (RK s) _) as [rk1 ckr1].
  - rewrite dhRatchet_ok. reflexivity.
Qed.

(** A message under a new ratchet key ([header.DH <> DHr], both keys
    of one length) that is not in the map, with both skips within
    [MaxSkip], a key generation that succeeds with [dhs], and the key of
    position [header.N] of the new receiving chain opening it:
    [RatchetDecrypt] returns the plaintext and commits the ratchet:
    [PN] is the old [Ns], [Ns = 0], [Nr = header.N + 1], [DHr = header.DH],
    [DHs = dhs], the root key has gone through both [KdfRK] steps, [CKs]
    is the new sending chain key and [CKr] the new receiving chain key
    advanced [header.N + 1] times.  The map holds the keys left in the old
    chain ([Nr <= i < header.PN], under the old [DHr], derived from the
    old [CKr]) and the keys skipped in the new chain ([i < header.N],
    under [header.DH]); every other entry is as before, and there is no
    key for the message itself. *)
Lemma RatchetDecrypt_on_new_key s h m ad dhs p :
  let hd := Header m in
  let c := Crypto s in
  let l := MkSkipped s in
  MessageHeader.DH hd <> DHr s ->
  length (MessageHeader.DH hd) = length (DHr s) ->
  map_lookup h l (message_key m) = None ->
  is_uint (Nr s) -> is_uint (MaxSkip s) ->
  is_uint (MessageHeader.PN hd) -> is_uint (MessageHeader.N hd) ->
  MessageHeader.PN hd <= uadd (Nr s) (MaxSkip s) ->
  MessageHeader.N hd <= MaxSkip s ->
  let k1 := Crypto.KdfRK c (RK s) (Crypto.DH c (DHs s) (MessageHeader.DH hd)) in
  let k2 := Crypto.KdfRK c k1.1 (Crypto.DH c dhs (MessageHeader.DH hd)) in
  let n := Z.to_nat (MessageHeader.N hd) in
  aead_open EncodeWithAD s (chain_message_key c k1.2 n) m ad = (p, None) ->
  exists h',
    RatchetDecrypt EncodeWithAD s h m ad (dhs, None) =
      (p, None,
       {| RK := k2.1; DHr := MessageHeader.DH hd; DHs := dhs; CKs := k2.2;
          CKr := chain_key c k1.2 (S n); Ns := 0;
          Nr := uadd (MessageHeader.N hd) 1; PN := Ns s;
          MkSkipped := l; MaxSkip := MaxSkip s; Crypto := c |}, h') /\
    (forall i, Nr s <= i < MessageHeader.PN hd ->
       map_lookup h' l (skippedKey (DHr s) i)
         = Some (chain_message_key c (CKr s) (Z.to_nat (i - Nr s)))) /\
    (forall i, 0 <= i < MessageHeader.N hd ->
       map_lookup h' l (skippedKey (MessageHeader.DH hd) i)
         = Some (chain_message_key c k1.2 (Z.to_nat i))) /\
    (forall k,
       (forall i, Nr s <= i < MessageHeader.PN hd -> k <> skippedKey (DHr s) i) ->
       (forall i, 0 <= i < MessageHeader.N hd -> k <> skippedKey (MessageHeader.DH hd) i) ->
       map_lookup h' l k = map_lookup h l k) /\
    map_lookup h' l (message_key m) = None /\
    (forall l', l' <> l -> h' !! l' = h !! l').
Proof.
  intros hd c l Hne Hlen Hmiss Hnr Hmax Hpn Hn Hguard1 Hguard2 k1 k2 n Hopen.
  destruct (ratchet_if_new_key_ok s h hd dhs None Hne Hnr Hpn Hguard1)
    as (h1 & Hstep & Hin1 & Hout1 & Hother1).
  fold c l k1 k2 in Hstep, Hin1, Hout1, Hother1.
  set (s2 := {| RK := k2.1; DHr := MessageHeader.DH hd; DHs := dhs; CKs := k2.2;
                CKr := k1.2; Ns := 0; Nr := 0; PN := Ns s;
                MkSkipped := l; MaxSkip := MaxSkip s; Crypto := c |}) in *.
  assert (Hzero : uadd 0 (MaxSkip s) = MaxSkip s)
    by (apply uadd_no_overflow; unfold is_uint in Hmax; lia).
  destruct (skipMessageKeys_ok s2 h1 (MessageHeader.N hd)) as
    (h' & Hrun & Hin2 & Hout2 & _ & Hother2);
    [split; [done | reflexivity] | done | simpl; by rewrite Hzero |].
  simpl in Hrun, Hin2, Hout2, Hother2.
  rewrite Z.sub_0_r in Hrun. fold n in Hrun.
  rewrite Z.max_r in Hrun by (unfold is_uint in Hn; lia).
  assert (Hdiff : forall i j, skippedKey (DHr s) i <> skippedKey (MessageHeader.DH hd) j).
  { intros i j Heq. apply skippedKey_eq_inv in Heq; [|done].
    destruct Heq as [Heq _]. by apply Hne. }
  exists h'. split; [|split; [|split; [|split; [|split]]]].
  - rewrite chain_key_succ. unfold RatchetDecrypt.
    rewrite (trySkippedMessageKeys_miss _ _ _ _ _ Hmiss). simpl.
    fold hd. rewrite Hstep, Hrun. simpl.
    unfold aead_open, chain_message_key in Hopen. fold hd c.
    destruct (Crypto.KdfCK c (chain_key c k1.2 n)) as [ckr mk]. simpl in *.
    change (Crypto.Decrypt c mk (Ciphertext m) (EncodeWithAD hd ad) = (p, None))
      in Hopen.
    by rewrite Hopen.
  - intros i Hi. rewrite Hout2; [by apply Hin1|]. intros j _. apply Hdiff.
  - intros i Hi. specialize (Hin2 i Hi). by rewrite Z.sub_0_r in Hin2.
  - intros k Hk1 Hk2. rewrite Hout2 by done. by apply Hout1.
  - rewrite Hout2, Hout1; [done | |].
    + intros i _ Heq. symmetry in Heq. by apply Hdiff in Heq.
    + intros i Hi Heq. apply skippedKey_inj_index in Heq. fold hd in Heq. lia.
  - intros l' Hl'. rewrite Hother2, Hother1; done.
Qed.

(** X7.  A message under a new ratchet key ([header.DH <> DHr], both keys
    of one length) that is not in the map, with both skips within
    [MaxSkip], a key generation that succeeds with [dhs], and the key of
    position [header.N] of the new receiving chain opening it:
    [RatchetDecrypt] returns the plaintext and commits the ratchet:
    [PN] is the old [Ns], [Ns = 0], [Nr = header.N + 1], [DHr = header.DH],
    [DHs = dhs], the root key has gone through both [KdfRK] steps, [CKs]
    is the new sending chain key and [CKr] the new receiving chain key
    advanced [header.N + 1] times.  The map holds the keys left in the old
    chain ([Nr <= i < header.PN], under the old [DHr], derived from the
    old [CKr]) and the keys skipped in the new chain ([i < header.N],
    under [header.DH]); every other entry is as before, and there is no
    key for the message itself. *)
Theorem RatchetDecrypt_ratchet_success s h m ad dhs p :
  let hd := Header m in
  let c := Crypto s in
  let l := MkSkipped s in
  MessageHeader.DH hd <> DHr s ->
  length (MessageHeader.DH hd) = length (DHr s) ->
  map_lookup h l (message_key m) = None ->
  is_uint (Nr s) -> is_uint (MaxSkip s) ->
  is_uint (MessageHeader.PN hd) -> is_uint (MessageHeader.N hd) ->
  MessageHeader.PN hd <= uadd (Nr s) (MaxSkip s) ->
  MessageHeader.N hd <= MaxSkip s ->
  let k1 := Crypto.KdfRK c (RK s) (Crypto.DH c (DHs s) (MessageHeader.DH hd)) in
  let k2 := Crypto.KdfRK c k1.1 (Crypto.DH c dhs (MessageHeader.DH hd)) in
  let n := Z.to_nat (MessageHeader.N hd) in
  aead_open EncodeWithAD s (chain_message_key c k1.2 n) m ad = (p, None) ->
  exists h',
    RatchetDecrypt EncodeWithAD s h m ad (dhs, None) =
      (p, None,
       {| RK := k2.1; DHr := MessageHeader.DH hd; DHs := dhs; CKs := k2.2;
          CKr := chain_key c k1.2 (S n); Ns := 0;
          Nr := uadd (MessageHeader.N hd) 1; PN := Ns s;
          MkSkipped := l; MaxSkip := MaxSkip s; Crypto := c |}, h') /\
    (forall i, Nr s <= i < MessageHeader.PN hd ->
       map_lookup h' l (skippedKey (DHr s) i)
         = Some (chain_message_key c (CKr s) (Z.to_nat (i - Nr s)))) /\
    (forall i, 0 <= i < MessageHeader.N hd ->
       map_lookup h' l (skippedKey (MessageHeader.DH hd) i)
         = Some (chain_message_key c k1.2 (Z.to_nat i))) /\
    (forall k,
       (forall i, Nr s <= i < MessageHeader.PN hd -> k <> skippedKey (DHr s) i) ->
       (forall i, 0 <= i < MessageHeader.N hd -> k <> skippedKey (MessageHeader.DH hd) i) ->
       map_lookup h' l k = map_lookup h l k) /\
    map_lookup h' l (message_key m) = None /\
    (forall l', l' <> l -> h' !! l' = h !! l').
Proof.
  intros hd c l Hne Hlen Hmiss Hnr Hmax Hpn Hn Hguard1 Hguard2 k1 k2 n Hopen.
  by apply RatchetDecrypt_on_new_key.
Qed.

(** X8.  The errors of the new-ratchet-key path, in the order the code
    meets them, on a message whose key is not in the map.  A [header.PN]
    beyond the skip window of the old chain: the skip-previous error with
    the count [header.PN - Nr], nothing changed.  Otherwise the keys left
    in the old chain are put into the map, and then: a failing key
    generation gives the ratchet-step error; a [header.N] beyond
    [MaxSkip] gives the skip-current error with the count [header.N];
    in both cases the struct is as before and the map keeps the old
    chain's keys. *)
Theorem RatchetDecrypt_ratchet_errors s h m ad dhs gerr :
  let hd := Header m in
  let l := MkSkipped s in
  let r := RatchetDecrypt EncodeWithAD s h m ad (dhs, gerr) in
  MessageHeader.DH hd <> DHr s ->
  map_lookup h l (message_key m) = None ->
  is_uint (Nr s) -> is_uint (MessageHeader.PN hd) ->
  (uadd (Nr s) (MaxSkip s) < MessageHeader.PN hd ->
     r = (nil_slice,
          Some (ErrSkipPrevious (ErrTooManyMessages (usub (MessageHeader.PN hd) (Nr s)))),
          s, h)) /\
  (MessageHeader.PN hd <= uadd (Nr s) (MaxSkip s) ->
     exists h1,
       (forall i, Nr s <= i < MessageHeader.PN hd ->
          map_lookup h1 l (skippedKey (DHr s) i)
            = Some (chain_message_key (Crypto s) (CKr s) (Z.to_nat (i - Nr s)))) /\
       (forall k, (forall i, Nr s <= i < MessageHeader.PN hd -> k <> skippedKey (DHr s) i) ->
          map_lookup h1 l k = map_lookup h l k) /\
       (forall e, gerr = Some e ->
          r = (nil_slice, Some (ErrRatchetStep (ErrGenerateDH e)), s, h1)) /\
       (gerr = None -> uadd 0 (MaxSkip s) < MessageHeader.N hd ->
          r = (nil_slice,
               Some (ErrSkipCurrent (ErrTooManyMessages (usub (MessageHeader.N hd) 0))),
               s, h1))).
Proof.
  intros hd l r Hne Hmiss Hnr Hpn. split.
  - intros Hlt. unfold r, RatchetDecrypt.
    rewrite (trySkippedMessageKeys_miss _ _ _ _ _ Hmiss). simpl.
    unfold ratchet_if_new_key. fold hd.
    destruct (decide (MessageHeader.DH hd <> DHr s)) as [_|Heq]; [|done].
    unfold skipMessageKeys.
    replace (uadd (Nr s) (MaxSkip s) <? MessageHeader.PN hd) with true
      by (symmetry; apply Z.ltb_lt; lia).
    reflexivity.
  - intros Hguard.
    destruct (ratchet_if_new_key_ok s h hd dhs gerr Hne Hnr Hpn Hguard)
      as (h1 & Hstep & Hin1 & Hout1 & _).
    exists h1. split; [done|]. split; [done|]. split.
    + intros e ->. unfold r, RatchetDecrypt.
      rewrite (trySkippedMessageKeys_miss _ _ _ _ _ Hmiss). simpl.
      fold hd. by rewrite Hstep.
    + intros -> Hlt. unfold r, RatchetDecrypt.
      rewrite (trySkippedMessageKeys_miss _ _ _ _ _ Hmiss). simpl.
      fold hd. rewrite Hstep. unfold skipMessageKeys. simpl.
      replace (uadd 0 (MaxSkip s) <? MessageHeader.N hd) with true
        by (symmetry; apply Z.ltb_lt; lia).
      reflexivity.
Qed.

End EngineComposition.

Section EngineSequences.

Variable EncodeWithAD : MessageHeader.t -> AssociatedData -> slice.

(** ** Sending a sequence *)

(** X9.  A run of [RatchetEncrypt] calls that does not exhaust the
    counter: the [i]-th message carries the header
    [(DHs.PublicKey(), Ns + i, PN)] and is sealed under the message key of
    position [i] of the sending chain; afterwards [Ns] has grown by the
    number of messages, [CKs] has advanced that many times, and nothing
    else has changed. *)
Theorem RatchetEncrypt_all_chain : forall plaintexts s h ad,
  0 <= Ns s ->
  Ns s + Z.of_nat (length plaintexts) < uint_modulus ->
  let c := Crypto s in
  let r := RatchetEncrypt_all EncodeWithAD s h plaintexts ad in
  length r.1.1 = length plaintexts /\
  (forall (i : nat) plaintext, plaintexts !! i = Some plaintext ->
     let hd := {| MessageHeader.DH := DHPair.PublicKey (DHs s);
                  MessageHeader.N := Ns s + Z.of_nat i;
                  MessageHeader.PN := PN s |} in
     r.1.1 !! i =
       Some {| Header := hd;
               Ciphertext :=
                 Crypto.Encrypt c (chain_message_key c (CKs s) i) plaintext
                   (EncodeWithAD hd ad) |}) /\
  r.1.2 = set_Ns (Ns s + Z.of_nat (length plaintexts))
            (set_CKs (chain_key c (CKs s) (length plaintexts)) s) /\
  r.2 = h.
Proof.
  induction plaintexts as [|p ps IH]; intros s h ad Hns Hlen c r; subst c r.
  - simpl. rewrite Z.add_0_r.
    split; [done|]. split; [intros i q Hq; discriminate Hq|].
    split; [by destruct s | done].
  - simpl in Hlen. simpl. unfold RatchetEncrypt.
    destruct (Crypto.KdfCK (Crypto s) (CKs s)) as [cks mk] eqn:Hk. simpl.
    assert (Hinc : uadd (Ns s) 1 = Ns s + 1) by (apply uadd_no_overflow; lia).
    rewrite Hinc.
    set (s1 := set_Ns (Ns s + 1) (set_CKs cks s)).
    destruct (IH s1 h ad) as (Hl & Hi & Hs & Hh); [simpl; lia | simpl; lia |].
    simpl in Hl, Hi, Hs, Hh.
    destruct (RatchetEncrypt_all EncodeWithAD s1 h ps ad) as [[ms s'] h'].
    simpl in *. subst s' h'.
    split; [by rewrite Hl|]. split; [|split; [|done]].
    + intros [|i] q Hq; simpl in Hq.
      * injection Hq as <-. simpl. rewrite Z.add_0_r.
        unfold chain_message_key. simpl. by rewrite Hk.
      * simpl. rewrite (Hi i q Hq).
        replace (Ns s + 1 + Z.of_nat i) with (Ns s + Z.of_nat (S i)) by lia.
        unfold chain_message_key. simpl. by rewrite Hk.
    + unfold s1. simpl.
      replace (Ns s + 1 + Z.of_nat (length ps))
        with (Ns s + Z.of_nat (S (length ps))) by lia.
      by destruct s.
Qed.

(** ** Sender and receiver *)

(** A receiver in step with a sender, a suite whose [Decrypt] opens
    what its [Encrypt] sealed, no stored key for the next position, and
    counters that do not overflow: the receiver's [RatchetDecrypt] of the
    sender's next [RatchetEncrypt] returns the bytes of the plaintext, the
    receiver's store is untouched, only its [CKr] and [Nr] have changed,
    and the two are in step again. *)
Lemma RatchetDecrypt_next_in_sync a ha b hb plaintext ad gen :
  in_sync a b ->
  is_uint (Ns a) -> Ns a + 1 < uint_modulus ->
  0 <= MaxSkip b -> Nr b + MaxSkip b < uint_modulus ->
  map_lookup hb (MkSkipped b) (skippedKey (DHPair.PublicKey (DHs a)) (Ns a)) = None ->
  (forall mk p aad, exists p',
      Crypto.Decrypt (Crypto a) mk (Crypto.Encrypt (Crypto a) mk p aad) aad = (p', None) /\
      slice_bytes p' = slice_bytes p) ->
  let e := RatchetEncrypt EncodeWithAD a ha plaintext ad in
  exists p,
    RatchetDecrypt EncodeWithAD b hb e.1.1 ad gen
      = (p, None,
         set_Nr (Nr b + 1) (set_CKr (Crypto.KdfCK (Crypto b) (CKr b)).1 b), hb) /\
    slice_bytes p = slice_bytes plaintext /\
    in_sync e.1.2 (set_Nr (Nr b + 1) (set_CKr (Crypto.KdfCK (Crypto b) (CKr b)).1 b)).
Proof.
  intros (Hc & Hdh & Hck & Hnr) Hns Hns1 Hmax Hsum Hmiss Haead e.
  unfold e, RatchetEncrypt.
  destruct (Crypto.KdfCK (Crypto a) (CKs a)) as [cks mk] eqn:Hk. simpl.
  unfold RatchetDecrypt.
  rewrite trySkippedMessageKeys_miss by done. simpl.
  unfold ratchet_if_new_key. simpl.
  destruct (decide (DHPair.PublicKey (DHs a) <> DHr b)) as [Hne|_]; [by rewrite Hdh in Hne|].
  rewrite skipMessageKeys_nothing_to_skip;
    [| rewrite Hnr; done | lia
     | rewrite uadd_no_overflow by (unfold is_uint in Hns; lia); lia].
  rewrite Hc, Hck, Hk. simpl.
  destruct (Haead mk plaintext
              (EncodeWithAD
                 {| MessageHeader.DH := DHPair.PublicKey (DHs a);
                    MessageHeader.N := Ns a; MessageHeader.PN := PN a |} ad))
    as (p' & Hopen & Hbytes).
  rewrite Hopen. exists p'.
  rewrite (uadd_no_overflow (Nr b) 1) by (unfold is_uint in Hns; lia).
  split; [done|]. split; [done|].
  unfold in_sync. simpl.
  rewrite (uadd_no_overflow (Ns a) 1) by (unfold is_uint in Hns; lia).
  repeat split; [done | done | lia].
Qed.

(** X10.  A receiver in step with a sender, a suite whose [Decrypt] opens
    what its [Encrypt] sealed, no stored key for the next position, and
    counters that do not overflow: the receiver's [RatchetDecrypt] of the
    sender's next [RatchetEncrypt] returns the bytes of the plaintext, the
    receiver's store is untouched, only its [CKr] and [Nr] have changed,
    and the two are in step again. *)
Theorem RatchetDecrypt_in_sync a ha b hb plaintext ad gen :
  in_sync a b ->
  is_uint (Ns a) -> Ns a + 1 < uint_modulus ->
  0 <= MaxSkip b -> Nr b + MaxSkip b < uint_modulus ->
  map_lookup hb (MkSkipped b) (skippedKey (DHPair.PublicKey (DHs a)) (Ns a)) = None ->
  (forall mk p aad, exists p',
      Crypto.Decrypt (Crypto a) mk (Crypto.Encrypt (Crypto a) mk p aad) aad = (p', None) /\
      slice_bytes p' = slice_bytes p) ->
  let e := RatchetEncrypt EncodeWithAD a ha plaintext ad in
  exists p,
    RatchetDecrypt EncodeWithAD b hb e.1.1 ad gen
      = (p, None,
         set_Nr (Nr b + 1) (set_CKr (Crypto.KdfCK (Crypto b) (CKr b)).1 b), hb) /\
    slice_bytes p = slice_bytes plaintext /\
    in_sync e.1.2 (set_Nr (Nr b + 1) (set_CKr (Crypto.KdfCK (Crypto b) (CKr b)).1 b)).
Proof.
  intros Hsync Hns Hns1 Hmax Hsum Hmiss Haead e.
  by apply RatchetDecrypt_next_in_sync.
Qed.

(** X14.  A whole run delivered in order.  The receiver is in step with
    the sender, the suite's [Decrypt] opens what its [Encrypt] sealed, the
    counters do not overflow during the run, and the receiver's map has no
    key for any position of the run.  Then every [RatchetDecrypt] of the
    run succeeds and returns the bytes of the plaintext at its position,
    the receiver's store is untouched, and after the run the two sessions
    are in step again. *)
Theorem RatchetDecrypt_all_in_order : forall plaintexts a ha b hb ad gen first,
  in_sync a b ->
  is_uint (Ns a) ->
  Ns a + Z.of_nat (length plaintexts) < uint_modulus ->
  0 <= MaxSkip b ->
  Nr b + Z.of_nat (length plaintexts) + MaxSkip b <= uint_modulus ->
  (forall i, Ns a <= i < Ns a + Z.of_nat (length plaintexts) ->
     map_lookup hb (MkSkipped b) (skippedKey (DHPair.PublicKey (DHs a)) i) = None) ->
  (forall mk p aad, exists p',
      Crypto.Decrypt (Crypto a) mk (Crypto.Encrypt (Crypto a) mk p aad) aad = (p', None) /\
      slice_bytes p' = slice_bytes p) ->
  let e := RatchetEncrypt_all EncodeWithAD a ha plaintexts ad in
  let d := RatchetDecrypt_all EncodeWithAD b hb e.1.1 ad gen first in
  length d.1.1 = length plaintexts /\
  (forall (i : nat) plaintext, plaintexts !! i = Some plaintext ->
     exists q, d.1.1 !! i = Some (q, None) /\ slice_bytes q = slice_bytes plaintext) /\
  in_sync e.1.2 d.1.2 /\
  d.2 = hb.
Proof.
  induction plaintexts as [|p ps IH];
    intros a ha b hb ad gen first Hsync Hns Hlen Hmax Hsum Hfree Haead e d;
    subst e d.
  - simpl. split; [done|]. split; [intros i q Hq; discriminate Hq|]. done.
  - simpl in Hlen, Hsum, Hfree.
    destruct (RatchetDecrypt_next_in_sync a ha b hb p ad (gen first))
      as (q & Hrun & Hq & Hsync1); [done | done | lia | done | lia | apply Hfree; lia | done |].
    assert (Ha1 : (RatchetEncrypt EncodeWithAD a ha p ad).1.2
                  = set_Ns (Ns a + 1) (set_CKs (Crypto.KdfCK (Crypto a) (CKs a)).1 a) /\
                  (RatchetEncrypt EncodeWithAD a ha p ad).2 = ha).
    { unfold RatchetEncrypt. destruct (Crypto.KdfCK (Crypto a) (CKs a)) as [cks mk].
      simpl. rewrite uadd_no_overflow by (unfold is_uint in Hns; lia). done. }
    destruct Ha1 as [Ha1 Hha1].
    simpl.
    destruct (RatchetEncrypt EncodeWithAD a ha p ad) as [[m a1] ha1] eqn:Henc.
    simpl in Hrun, Hsync1, Ha1, Hha1. subst ha1.
    set (b1 := set_Nr (Nr b + 1) (set_CKr (Crypto.KdfCK (Crypto b) (CKr b)).1 b)) in *.
    destruct (IH a1 ha b1 hb ad gen (S first)) as (Hl & Hi & Hs & Hh).
    + done.
    + rewrite Ha1. simpl. unfold is_uint in *. lia.
    + rewrite Ha1. simpl. lia.
    + done.
    + simpl. lia.
    + intros i Hi. rewrite Ha1 in Hi |- *. simpl in Hi |- *. apply Hfree. lia.
    + rewrite Ha1. simpl. done.
    + simpl in Hl, Hi, Hs, Hh.
      destruct (RatchetEncrypt_all EncodeWithAD a1 ha ps ad) as [[ms a2] ha2].
      simpl in *. rewrite Hrun.
      destruct (RatchetDecrypt_all EncodeWithAD b1 hb ms ad gen (S first))
        as [[rs b2] hb2].
      simpl in *.
      split; [by rewrite Hl|]. split; [|done].
      intros [|i] q0 Hq0; simpl in Hq0.
      * injection Hq0 as <-. exists q. done.
      * by apply Hi.
Qed.

(** X11.  Two messages delivered in the wrong order.  The receiver is in
    step with the sender, [MaxSkip] is at least 1, the map has no key for
    the next two positions, and the suite's [Decrypt] returns, as a non-nil
    slice, what its [Encrypt] sealed.  The sender encrypts [p0] and then
    [p1]; the receiver decrypts the second message first, then the first.
    Both calls return the bytes of their plaintext; the first message is
    served from the map and leaves the struct alone; afterwards the two
    sessions are in step and the receiver's map has the entries it had
    before. *)
Theorem RatchetDecrypt_out_of_order a ha b hb p0 p1 ad gen0 gen1 :
  in_sync a b ->
  is_uint (Ns a) -> Ns a + 2 < uint_modulus ->
  1 <= MaxSkip b -> Nr b + MaxSkip b < uint_modulus ->
  map_lookup hb (MkSkipped b) (skippedKey (DHPair.PublicKey (DHs a)) (Ns a)) = None ->
  map_lookup hb (MkSkipped b) (skippedKey (DHPair.PublicKey (DHs a)) (Ns a + 1)) = None ->
  (forall mk p aad,
      Crypto.Decrypt (Crypto a) mk (Crypto.Encrypt (Crypto a) mk p aad) aad
        = (mk_slice (slice_bytes p), None)) ->
  let e0 := RatchetEncrypt EncodeWithAD a ha p0 ad in
  let e1 := RatchetEncrypt EncodeWithAD e0.1.2 e0.2 p1 ad in
  exists b1 hb1 hb2,
    RatchetDecrypt EncodeWithAD b hb e1.1.1 ad gen1
      = (mk_slice (slice_bytes p1), None, b1, hb1) /\
    RatchetDecrypt EncodeWithAD b1 hb1 e0.1.1 ad gen0
      = (mk_slice (slice_bytes p0), None, b1, hb2) /\
    in_sync e1.1.2 b1 /\
    (forall k, map_lookup hb2 (MkSkipped b) k = map_lookup hb (MkSkipped b) k).
Proof.
  intros (Hc & Hdh & Hck & Hnr) Hns Hns2 Hmax Hsum Hmiss0 Hmiss1 Haead e0 e1.
  assert (Hn0 : 0 <= Ns a) by (unfold is_uint in Hns; lia).
  pose (m0 := e0.1.1). pose (m1 := e1.1.1).
  assert (Hm0 : m0 = {| Header := {| MessageHeader.DH := DHPair.PublicKey (DHs a);
                                     MessageHeader.N := Ns a;
                                     MessageHeader.PN := PN a |};
                        Ciphertext :=
                          Crypto.Encrypt (Crypto a)
                            (chain_message_key (Crypto a) (CKs a) 0) p0
                            (EncodeWithAD
                               {| MessageHeader.DH := DHPair.PublicKey (DHs a);
                                  MessageHeader.N := Ns a;
                                  MessageHeader.PN := PN a |} ad) |}).
  { unfold m0, e0, RatchetEncrypt, chain_message_key. simpl.
    by destruct (Crypto.KdfCK (Crypto a) (CKs a)). }
  assert (Hm1 : m1 = {| Header := {| MessageHeader.DH := DHPair.PublicKey (DHs a);
                                     MessageHeader.N := Ns a + 1;
                                     MessageHeader.PN := PN a |};
                        Ciphertext :=
                          Crypto.Encrypt (Crypto a)
                            (chain_message_key (Crypto a) (CKs a) 1) p1
                            (EncodeWithAD
                               {| MessageHeader.DH := DHPair.PublicKey (DHs a);
                                  MessageHeader.N := Ns a + 1;
                                  MessageHeader.PN := PN a |} ad) |}).
  { unfold m1, e1, e0, RatchetEncrypt, chain_message_key. simpl.
    destruct (Crypto.KdfCK (Crypto a) (CKs a)) as [cks1 mk0]. simpl.
    destruct (Crypto.KdfCK (Crypto a) cks1) as [cks2 mk1]. simpl.
    by rewrite uadd_no_overflow by lia. }
  assert (He1 : e1.1.2 = set_Ns (Ns a + 2)
                           (set_CKs (chain_key (Crypto a) (CKs a) 2) a)).
  { unfold e1, e0, RatchetEncrypt. simpl.
    destruct (Crypto.KdfCK (Crypto a) (CKs a)) as [cks1 mk0]. simpl.
    destruct (Crypto.KdfCK (Crypto a) cks1) as [cks2 mk1]. simpl.
    rewrite !uadd_no_overflow by (rewrite ?uadd_no_overflow by lia; lia).
    replace (Ns a + 1 + 1) with (Ns a + 2) by lia. by destruct a. }
  fold m0 m1. rewrite He1.
  destruct (RatchetDecrypt_on_chain EncodeWithAD b hb m1 ad gen1)
    as (hb1 & Hrun1 & Hin1 & Hout1 & Hgone1 & Hother1).
  { rewrite Hm1. simpl. done. }
  { rewrite Hm1. unfold message_key. simpl. done. }
  { by rewrite Hnr. }
  { rewrite Hm1. simpl. unfold is_uint in *. lia. }
  { rewrite Hm1. simpl. rewrite uadd_no_overflow by lia. lia. }
  assert (Htarget : MessageHeader.N (Header m1) = Ns a + 1) by (by rewrite Hm1).
  rewrite Htarget in Hrun1, Hin1, Hout1.
  replace (Z.to_nat (Ns a + 1 - Nr b)) with 1%nat in Hrun1 by lia.
  assert (Hopen1 : aead_open EncodeWithAD b (chain_message_key (Crypto b) (CKr b) 1) m1 ad
                   = (mk_slice (slice_bytes p1), None)).
  { unfold aead_open. rewrite Hc, Hck, Hm1. simpl. apply Haead. }
  rewrite Hopen1 in Hrun1.
  rewrite Z.max_r in Hrun1 by lia.
  rewrite uadd_no_overflow in Hrun1 by lia.
  set (b1 := set_Nr (Ns a + 1 + 1) (set_CKr (chain_key (Crypto b) (CKr b) 2) b)) in *.
  assert (Hkey0 : map_lookup hb1 (MkSkipped b1) (message_key m0)
                  = Some (chain_message_key (Crypto a) (CKs a) 0)).
  { unfold message_key. rewrite Hm0. simpl. rewrite <- Hdh.
    rewrite (Hin1 (Ns a)) by lia.
    replace (Z.to_nat (Ns a - Nr b)) with 0%nat by lia.
    by rewrite Hc, Hck. }
  assert (Hopen0 : aead_open EncodeWithAD b1 (chain_message_key (Crypto a) (CKs a) 0) m0 ad
                   = (mk_slice (slice_bytes p0), None)).
  { unfold aead_open. simpl. rewrite Hc, Hm0. simpl. apply Haead. }
  exists b1, hb1, (map_delete hb1 (MkSkipped b1) (message_key m0)).
  split; [done|].
  split; [by apply RatchetDecrypt_skipped_hit with (chain_message_key (Crypto a) (CKs a) 0)|].
  split.
  - unfold in_sync, b1. simpl. rewrite Hc, Hck.
    repeat split; [done | lia].
  - intros k. simpl.
    assert (Hk0 : message_key m0 = skippedKey (DHr b) (Ns a)).
    { unfold message_key. rewrite Hm0. simpl. by rewrite Hdh. }
    destruct (decide (k = message_key m0)) as [->|Hk].
    + rewrite map_lookup_delete_eq. rewrite Hk0, Hdh. by rewrite Hmiss0.
    + rewrite map_lookup_delete_ne by done. apply Hout1.
      intros i Hi. assert (i = Ns a) as -> by lia. by rewrite <- Hk0.
Qed.

(** ** What [RatchetDecrypt] never touches *)

Lemma skipMessageKeys_fields s h until :
  let s' := (skipMessageKeys s h until).1.2 in
  MkSkipped s' = MkSkipped s /\ MaxSkip s' = MaxSkip s /\ Crypto s' = Crypto s.
Proof.
  unfold skipMessageKeys. destruct (_ <? _); [done|].
  pose proof (skip_loop_fields (Z.to_nat (until - Nr s)) s h until) as Hf.
  destruct (skip_loop _ s h until) as [s' h']. simpl in *. tauto.
Qed.

Lemma skipMessageKeys_other_loc s h until l :
  l <> MkSkipped s -> (skipMessageKeys s h until).2 !! l = h !! l.
Proof.
  intros Hl. unfold skipMessageKeys. destruct (_ <? _); [done|].
  pose proof (skip_loop_other_loc (Z.to_nat (until - Nr s)) s h until l Hl) as Ho.
  by destruct (skip_loop _ s h until) as [s' h'].
Qed.

Lemma dhRatchet_fields s hd gen :
  let s' := (dhRatchet s hd gen).2 in
  MkSkipped s' = MkSkipped s /\ MaxSkip s' = MaxSkip s /\ Crypto s' = Crypto s.
Proof.
  unfold dhRatchet. simpl.
  destruct (Crypto.KdfRK (Crypto s) (RK s) _) as [rk1 ckr1]. simpl.
  destruct gen as [dhs [e|]]; simpl; [done|].
  by destruct (Crypto.KdfRK (Crypto s) rk1 _) as [rk2 cks2].
Qed.

(** X12.  Whatever the message and the outcome, [RatchetDecrypt] keeps the
    session's map reference, [MaxSkip] and suite, and writes to no map of
    the store other than the session's own. *)
Theorem RatchetDecrypt_frame s h m ad gen :
  let r := RatchetDecrypt EncodeWithAD s h m ad gen in
  MkSkipped r.1.2 = MkSkipped s /\
  MaxSkip r.1.2 = MaxSkip s /\
  Crypto r.1.2 = Crypto s /\
  (forall l, l <> MkSkipped s -> r.2 !! l = h !! l).
Proof.
  unfold RatchetDecrypt.
  assert (Htry : forall l, l <> MkSkipped s ->
            (trySkippedMessageKeys EncodeWithAD s h m ad).2 !! l = h !! l).
  { intros l Hl. unfold trySkippedMessageKeys.
    destruct (map_lookup _ _ _); [|done].
    destruct (Crypto.Decrypt _ _ _ _) as [p [e|]]; [done|]. simpl.
    apply map_delete_other_loc. congruence. }
  destruct (trySkippedMessageKeys EncodeWithAD s h m ad) as [[p0 [e0|]] h0];
    simpl in Htry; [done|].
  destruct (not_nil p0); [done|].
  assert (Hstep : match ratchet_if_new_key s h0 (Header m) gen with
                  | inl (_, h1) => forall l, l <> MkSkipped s -> h1 !! l = h !! l
                  | inr (sc, h1) =>
                      MkSkipped sc = MkSkipped s /\ MaxSkip sc = MaxSkip s /\
                      Crypto sc = Crypto s /\
                      forall l, l <> MkSkipped s -> h1 !! l = h !! l
                  end).
  { unfold ratchet_if_new_key. destruct (decide _); [|done].
    pose proof (skipMessageKeys_fields s h0 (MessageHeader.PN (Header m))) as Hf.
    pose proof (skipMessageKeys_other_loc s h0 (MessageHeader.PN (Header m))) as Ho.
    destruct (skipMessageKeys s h0 _) as [[[e1|] s1] h1]; simpl in *.
    - intros l Hl. rewrite Ho by done. by apply Htry.
    - pose proof (dhRatchet_fields s1 (Header m) gen) as Hd.
      destruct (dhRatchet s1 (Header m) gen) as [[e2|] s2]; simpl in *.
      + intros l Hl. rewrite Ho by done. by apply Htry.
      + destruct Hf as (-> & -> & ->) in Hd. repeat split; try tauto.
        intros l Hl. rewrite Ho by done. by apply Htry. }
  destruct (ratchet_if_new_key s h0 (Header m) gen) as [[e1 h1]|[sc h1]]; [done|].
  destruct Hstep as (Hl1 & Hm1 & Hc1 & Ho1).
  pose proof (skipMessageKeys_fields sc h1 (MessageHeader.N (Header m))) as Hf.
  pose proof (skipMessageKeys_other_loc sc h1 (MessageHeader.N (Header m))) as Ho.
  destruct (skipMessageKeys sc h1 _) as [[[e2|] s2] h2]; simpl in *.
  - repeat split. intros l Hl. rewrite Ho by congruence. by apply Ho1.
  - destruct (Crypto.KdfCK (Crypto s2) (CKr s2)) as [ckr mk].
    destruct (Crypto.Decrypt _ mk _ _) as [p [e|]]; simpl.
    + repeat split. intros l Hl. rewrite Ho by congruence. by apply Ho1.
    + destruct Hf as (-> & -> & ->). repeat split; try done.
      intros l Hl. rewrite Ho by congruence. by apply Ho1.
Qed.

End EngineSequences.

(** ** More on [New] *)

(** X13.  [New] with [WithMaxSkip(maxSkip)] on a non-zero key: a negative
    [maxSkip] makes [New] fail with the option error wrapping "maxSkip
    must be non-negative"; a non-negative one (a Go [int], so below 2^63)
    yields the default session with [MaxSkip = maxSkip].  A failing
    [GenerateDH] makes [New] fail with that error wrapped, whatever the
    options; and an option that fails stops [New] with its error wrapped,
    whatever options follow it. *)
Theorem New_options_and_errors crypto sharedKey dhs maxSkip (h : heap) :
  sharedKey <> zeroKey ->
  let s0 := {| RK := sharedKey; DHr := zeroKey; DHs := dhs;
               CKs := sharedKey; CKr := sharedKey;
               Ns := 0; Nr := 0; PN := 0;
               MkSkipped := (map_make h).1; MaxSkip := 1000; Crypto := crypto |} in
  (maxSkip < 0 ->
     (New crypto sharedKey [WithMaxSkip maxSkip] (dhs, None) h).1
       = inr (ErrApplyOption ErrNegativeMaxSkip)) /\
  (0 <= maxSkip < 2 ^ 63 ->
     (New crypto sharedKey [WithMaxSkip maxSkip] (dhs, None) h).1
       = inl (set_MaxSkip maxSkip s0)) /\
  (forall opts e,
     (New crypto sharedKey opts (dhs, Some e) h).1 = inr (ErrGenerateDH e)) /\
  (forall (o : Option) opts e,
     (o s0).2 = Some e ->
     (New crypto sharedKey (o :: opts) (dhs, None) h).1 = inr (ErrApplyOption e)).
Proof.
  intros Hsk s0.
  split; [|split; [|split]].
  - intros Hneg. unfold New. destruct (decide (sharedKey = zeroKey)); [done|].
    simpl. unfold WithMaxSkip.
    replace (maxSkip <? 0) with true by (symmetry; apply Z.ltb_lt; lia).
    reflexivity.
  - intros Hrange. unfold New. destruct (decide (sharedKey = zeroKey)); [done|].
    simpl. unfold WithMaxSkip.
    replace (maxSkip <? 0) with false by (symmetry; apply Z.ltb_ge; lia).
    simpl. rewrite uint_wrap_id; [reflexivity|].
    unfold is_uint, uint_modulus. lia.
  - intros opts e. unfold New. by destruct (decide (sharedKey = zeroKey)).
  - intros o opts e Ho. unfold New. destruct (decide (sharedKey = zeroKey)); [done|].
    simpl. change (o (set_DHs dhs _)) with (o s0).
    destruct (o s0) as [s1 [e1|]]; simpl in *; [|done].
    by injection Ho as ->.
Qed.

Section EngineTurns.

Variable EncodeWithAD : MessageHeader.t -> AssociatedData -> slice.

(** ** Following a DH ratchet step *)

(** The receiver follows the sender's DH ratchet step on the sender's next
    message. *)
Lemma RatchetDecrypt_follows a ha b hb plaintext ad dhs :
  leads a b ->
  Crypto.DH (Crypto a) dhs (DHPair.PublicKey (DHs a))
    = Crypto.DH (Crypto a) (DHs a) (DHPair.PublicKey dhs) ->
  DHPair.PublicKey (DHs a) <> DHr b ->
  length (DHPair.PublicKey (DHs a)) = length (DHr b) ->
  map_lookup hb (MkSkipped b) (skippedKey (DHPair.PublicKey (DHs a)) (Ns a)) = None ->
  is_uint (Nr b) -> is_uint (MaxSkip b) -> is_uint (PN a) -> is_uint (Ns a) ->
  Ns a + 1 < uint_modulus ->
  PN a <= uadd (Nr b) (MaxSkip b) ->
  Ns a <= MaxSkip b ->
  (forall mk p aad, exists p',
      Crypto.Decrypt (Crypto a) mk (Crypto.Encrypt (Crypto a) mk p aad) aad = (p', None) /\
      slice_bytes p' = slice_bytes p) ->
  let e := RatchetEncrypt EncodeWithAD a ha plaintext ad in
  exists p b' hb',
    RatchetDecrypt EncodeWithAD b hb e.1.1 ad (dhs, None) = (p, None, b', hb') /\
    slice_bytes p = slice_bytes plaintext /\
    in_sync e.1.2 b' /\
    leads b' e.1.2 /\
    Ns b' = 0 /\ PN b' = Ns b /\ DHs b' = dhs /\
    MkSkipped b' = MkSkipped b /\ MaxSkip b' = MaxSkip b /\
    (forall k,
       (forall i, Nr b <= i < PN a -> k <> skippedKey (DHr b) i) ->
       (forall i, 0 <= i < Ns a -> k <> skippedKey (DHPair.PublicKey (DHs a)) i) ->
       map_lookup hb' (MkSkipped b) k = map_lookup hb (MkSkipped b) k).
Proof.
  intros (Hc & Hdhr & Hrk & Hcks) Hagree Hne Hlen Hmiss Hnr Hmax Hpn Hns Hns1
    Hguard1 Hguard2 Haead e.
  assert (Hn0 : 0 <= Ns a) by (unfold is_uint in Hns; lia).
  set (c := Crypto a) in *.
  set (k1 := Crypto.KdfRK c (RK b) (Crypto.DH c (DHs b) (DHPair.PublicKey (DHs a)))) in *.
  set (n := Z.to_nat (Ns a)) in *.
  set (hd := {| MessageHeader.DH := DHPair.PublicKey (DHs a);
                MessageHeader.N := Ns a; MessageHeader.PN := PN a |}).
  set (mk := chain_message_key c k1.2 n).
  assert (He : e = ({| Header := hd;
                       Ciphertext := Crypto.Encrypt c mk plaintext (EncodeWithAD hd ad) |},
                    set_Ns (Ns a + 1) (set_CKs (chain_key c k1.2 (S n)) a), ha)).
  { unfold e, RatchetEncrypt. rewrite chain_key_succ. unfold mk, chain_message_key.
    fold c. rewrite Hcks.
    destruct (Crypto.KdfCK c (chain_key c k1.2 n)) as [cks mk0]. simpl.
    by rewrite uadd_no_overflow by lia. }
  rewrite He. simpl.
  destruct (Haead mk plaintext (EncodeWithAD hd ad)) as (p & Hopen & Hbytes).
  destruct (RatchetDecrypt_on_new_key EncodeWithAD b hb
              {| Header := hd;
                 Ciphertext := Crypto.Encrypt c mk plaintext (EncodeWithAD hd ad) |}
              ad dhs p)
    as (hb' & Hrun & _ & _ & Hout & _); try done.
  { unfold aead_open. simpl. rewrite Hc. exact Hopen. }
  simpl in Hrun, Hout. rewrite Hc in Hrun. fold k1 n in Hrun.
  eexists p, _, hb'. split; [exact Hrun|]. split; [done|].
  split; [|split; [|done]].
  - unfold in_sync. simpl. rewrite uadd_no_overflow by lia. done.
  - unfold leads. simpl. fold c k1. rewrite <- Hrk, Hagree. done.
Qed.

(** X15.  Following a DH ratchet step.  The sender [a] has taken a DH
    step against the receiver's current pair and sends its next message;
    the receiver [b] does not know [a]'s ratchet key yet.  With both skips
    within [MaxSkip], counters that do not overflow, a key generation that
    succeeds with [dhs], and a suite whose [Decrypt] opens what its
    [Encrypt] sealed and whose DH is the same from both sides for [dhs]
    and [a]'s pair: [b]'s [RatchetDecrypt] returns the bytes of the
    plaintext; [b] is then in step with [a] on the new chain, and [b]
    itself now leads [a] with the new pair [dhs], [Ns = 0] and [PN] its
    old [Ns]. *)
Theorem RatchetDecrypt_follows_ratchet a ha b hb plaintext ad dhs :
  leads a b ->
  Crypto.DH (Crypto a) dhs (DHPair.PublicKey (DHs a))
    = Crypto.DH (Crypto a) (DHs a) (DHPair.PublicKey dhs) ->
  DHPair.PublicKey (DHs a) <> DHr b ->
  length (DHPair.PublicKey (DHs a)) = length (DHr b) ->
  map_lookup hb (MkSkipped b) (skippedKey (DHPair.PublicKey (DHs a)) (Ns a)) = None ->
  is_uint (Nr b) -> is_uint (MaxSkip b) -> is_uint (PN a) -> is_uint (Ns a) ->
  Ns a + 1 < uint_modulus ->
  PN a <= uadd (Nr b) (MaxSkip b) ->
  Ns a <= MaxSkip b ->
  (forall mk p aad, exists p',
      Crypto.Decrypt (Crypto a) mk (Crypto.Encrypt (Crypto a) mk p aad) aad = (p', None) /\
      slice_bytes p' = slice_bytes p) ->
  let e := RatchetEncrypt EncodeWithAD a ha plaintext ad in
  exists p b' hb',
    RatchetDecrypt EncodeWithAD b hb e.1.1 ad (dhs, None) = (p, None, b', hb') /\
    slice_bytes p = slice_bytes plaintext /\
    in_sync e.1.2 b' /\
    leads b' e.1.2 /\
    Ns b' = 0 /\ PN b' = Ns b /\ DHs b' = dhs.
Proof.
  intros Hleads Hagree Hne Hlen Hmiss Hnr Hmax Hpn Hns Hns1 Hguard1 Hguard2 Haead e.
  destruct (RatchetDecrypt_follows a ha b hb plaintext ad dhs)
    as (p & b' & hb' & Hrun & Hp & Hsync & Hl & H1 & H2 & H3 & _); try done.
  exists p, b', hb'. done.
Qed.

(** ** A conversation from fresh sessions *)

Lemma RatchetEncrypt_eq s h plaintext ad :
  let hd := {| MessageHeader.DH := DHPair.PublicKey (DHs s);
               MessageHeader.N := Ns s; MessageHeader.PN := PN s |} in
  RatchetEncrypt EncodeWithAD s h plaintext ad =
    ({| Header := hd;
        Ciphertext :=
          Crypto.Encrypt (Crypto s) (Crypto.KdfCK (Crypto s) (CKs s)).2 plaintext
            (EncodeWithAD hd ad) |},
     set_Ns (uadd (Ns s) 1) (set_CKs (Crypto.KdfCK (Crypto s) (CKs s)).1 s), h).
Proof.
  unfold RatchetEncrypt. by destruct (Crypto.KdfCK (Crypto s) (CKs s)).
Qed.

(** The two sessions [New] builds for an initiator (with the responder's
    public key) and a responder (without a remote key). *)
Lemma New_initiator_responder crypto sharedKey dhsA dhsB (hA hB : heap) :
  sharedKey <> zeroKey ->
  Crypto.DH crypto dhsB (DHPair.PublicKey dhsA)
    = Crypto.DH crypto dhsA (DHPair.PublicKey dhsB) ->
  let k := Crypto.KdfRK crypto sharedKey (Crypto.DH crypto dhsA (DHPair.PublicKey dhsB)) in
  let A := {| RK := k.1; DHr := DHPair.PublicKey dhsB; DHs := dhsA;
              CKs := k.2; CKr := sharedKey; Ns := 0; Nr := 0; PN := 0;
              MkSkipped := (map_make hA).1; MaxSkip := 1000; Crypto := crypto |} in
  let B := {| RK := sharedKey; DHr := zeroKey; DHs := dhsB;
              CKs := sharedKey; CKr := sharedKey; Ns := 0; Nr := 0; PN := 0;
              MkSkipped := (map_make hB).1; MaxSkip := 1000; Crypto := crypto |} in
  New crypto sharedKey [WithRemoteKey (DHPair.PublicKey dhsB)] (dhsA, None) hA
    = (inl A, (map_make hA).2) /\
  New crypto sharedKey [] (dhsB, None) hB = (inl B, (map_make hB).2) /\
  leads A B.
Proof.
  intros Hsk Hagree k A B. split; [|split].
  - unfold New. destruct (decide (sharedKey = zeroKey)) as [|_]; [done|].
    unfold apply_options, WithRemoteKey. simpl. fold k. by destruct k.
  - unfold New. by destruct (decide (sharedKey = zeroKey)) as [|_].
  - unfold leads. simpl. rewrite Hagree. fold k. done.
Qed.

(** X16.  A conversation from fresh sessions.  Alice is constructed with
    Bob's public key, Bob without a remote key, from one non-zero shared
    key; the suite's DH gives the same output from both sides for the
    pairs that meet, and its
    [Decrypt] opens what its [Encrypt] sealed; every generated public key
    differs from the peer's previous one (and from the all-zero key) and
    has its length.  Alice sends, Bob receives, Bob replies, Alice
    receives, Alice sends again, Bob receives: each [RatchetDecrypt]
    returns the bytes of what was sent.  Alice's first message carries
    her initial ratchet key; her second carries the key she generated
    when Bob's reply arrived, with [N = 0] and [PN = 1]. *)
Theorem conversation_from_fresh_sessions
    crypto sharedKey dhsA dhsB dhsB1 dhsA2 dhsB3 (hA hB : heap) p1 p2 p3 ad :
  sharedKey <> zeroKey ->
  dh_agree crypto dhsB dhsA -> dh_agree crypto dhsB1 dhsA ->
  dh_agree crypto dhsA2 dhsB1 -> dh_agree crypto dhsB3 dhsA2 ->
  (forall mk p aad, exists p',
      Crypto.Decrypt crypto mk (Crypto.Encrypt crypto mk p aad) aad = (p', None) /\
      slice_bytes p' = slice_bytes p) ->
  DHPair.PublicKey dhsA <> zeroKey ->
  DHPair.PublicKey dhsB1 <> DHPair.PublicKey dhsB ->
  DHPair.PublicKey dhsA2 <> DHPair.PublicKey dhsA ->
  length (DHPair.PublicKey dhsA) = length zeroKey ->
  length (DHPair.PublicKey dhsB1) = length (DHPair.PublicKey dhsB) ->
  length (DHPair.PublicKey dhsA2) = length (DHPair.PublicKey dhsA) ->
  exists A hA0 B hB0,
    New crypto sharedKey [WithRemoteKey (DHPair.PublicKey dhsB)] (dhsA, None) hA
      = (inl A, hA0) /\
    New crypto sharedKey [] (dhsB, None) hB = (inl B, hB0) /\
    let e1 := RatchetEncrypt EncodeWithAD A hA0 p1 ad in
    exists q1 B1 hB1,
      RatchetDecrypt EncodeWithAD B hB0 e1.1.1 ad (dhsB1, None) = (q1, None, B1, hB1) /\
      slice_bytes q1 = slice_bytes p1 /\
      let e2 := RatchetEncrypt EncodeWithAD B1 hB1 p2 ad in
      exists q2 A2 hA2,
        RatchetDecrypt EncodeWithAD e1.1.2 e1.2 e2.1.1 ad (dhsA2, None)
          = (q2, None, A2, hA2) /\
        slice_bytes q2 = slice_bytes p2 /\
        let e3 := RatchetEncrypt EncodeWithAD A2 hA2 p3 ad in
        MessageHeader.DH (Header e1.1.1) = DHPair.PublicKey dhsA /\
        Header e3.1.1 = {| MessageHeader.DH := DHPair.PublicKey dhsA2;
                           MessageHeader.N := 0; MessageHeader.PN := 1 |} /\
        exists q3 B3 hB3,
          RatchetDecrypt EncodeWithAD e2.1.2 e2.2 e3.1.1 ad (dhsB3, None)
            = (q3, None, B3, hB3) /\
          slice_bytes q3 = slice_bytes p3.
Proof.
  intros Hsk Hagree0 Hagree1 Hagree2 Hagree3 Haead
    HpubA HpubB1 HpubA2 HlenA HlenB1 HlenA2.
  unfold dh_agree in Hagree0, Hagree1, Hagree2, Hagree3.
  destruct (New_initiator_responder crypto sharedKey dhsA dhsB hA hB Hsk Hagree0)
    as (HnewA & HnewB & Hleads).
  pose proof (map_make_empty hA) as HemptyA.
  pose proof (map_make_empty hB) as HemptyB.
  set (hA0 := (map_make hA).2) in *. set (lA := (map_make hA).1) in *.
  set (hB0 := (map_make hB).2) in *. set (lB := (map_make hB).1) in *.
  clearbody hA0 lA hB0 lB.
  set (k := Crypto.KdfRK crypto sharedKey
              (Crypto.DH crypto dhsA (DHPair.PublicKey dhsB))) in *.
  set (A := {| RK := k.1; DHr := DHPair.PublicKey dhsB; DHs := dhsA;
               CKs := k.2; CKr := sharedKey; Ns := 0; Nr := 0; PN := 0;
               MkSkipped := lA; MaxSkip := 1000; Crypto := crypto |}) in *.
  set (B := {| RK := sharedKey; DHr := zeroKey; DHs := dhsB;
               CKs := sharedKey; CKr := sharedKey; Ns := 0; Nr := 0; PN := 0;
               MkSkipped := lB; MaxSkip := 1000; Crypto := crypto |}) in *.
  exists A, hA0, B, hB0.
  split; [done|]. split; [done|].
  assert (Hu0 : is_uint 0) by (split; [done | reflexivity]).
  assert (Hu1000 : is_uint 1000) by (split; [done | reflexivity]).
  (* Alice's first message reaches Bob. *)
  destruct (RatchetDecrypt_follows A hA0 B hB0 p1 ad dhsB1)
    as (q1 & B1 & hB1 & Hrun1 & Hq1 & Hsync1 & Hleads1 & HNs1 & HPN1 & HDHs1
        & HMk1 & HMax1 & Hframe1);
    try done; try (by apply HemptyB); try exact Hagree1.
  intros e1. exists q1, B1, hB1. split; [exact Hrun1|]. split; [exact Hq1|].
  pose proof (RatchetEncrypt_eq A hA0 p1 ad) as He1.
  cbv zeta in He1. fold e1 in He1, Hsync1, Hleads1.
  set (A1 := e1.1.2) in *.
  assert (HA1 : A1 = set_Ns (uadd 0 1) (set_CKs (Crypto.KdfCK crypto k.2).1 A))
    by (unfold A1; by rewrite He1).
  assert (Hh1 : e1.2 = hA0) by (by rewrite He1).
  destruct Hsync1 as (HcB1 & HdhrB1 & _ & HnrB1).
  assert (HcryptoB1 : Crypto B1 = crypto) by (rewrite HcB1, HA1; done).
  assert (HfreeB : forall key, map_lookup hB1 (MkSkipped B) key = None).
  { intros key. rewrite Hframe1; [apply HemptyB | |]; simpl; intros i Hi; lia. }
  (* Bob's reply reaches Alice. *)
  intros e2.
  destruct (RatchetDecrypt_follows B1 hB1 A1 e1.2 p2 ad dhsA2)
    as (q2 & A2 & hA2 & Hrun2 & Hq2 & Hsync2 & Hleads2 & HNs2 & HPN2 & HDHs2
        & HMk2 & HMax2 & Hframe2).
  { exact Hleads1. }
  { rewrite HcryptoB1, HDHs1. exact Hagree2. }
  { rewrite HDHs1, HA1. simpl. exact HpubB1. }
  { rewrite HDHs1, HA1. simpl. exact HlenB1. }
  { rewrite Hh1, HA1. simpl. apply HemptyA. }
  { rewrite HA1. simpl. exact Hu0. }
  { rewrite HA1. simpl. exact Hu1000. }
  { rewrite HPN1. simpl. exact Hu0. }
  { rewrite HNs1. exact Hu0. }
  { rewrite HNs1. reflexivity. }
  { rewrite HPN1, HA1. simpl. done. }
  { rewrite HNs1, HA1. simpl. done. }
  { rewrite HcryptoB1. exact Haead. }
  fold e2 in Hrun2, Hsync2, Hleads2.
  exists q2, A2, hA2. split; [exact Hrun2|]. split; [exact Hq2|].
  pose proof (RatchetEncrypt_eq B1 hB1 p2 ad) as He2.
  cbv zeta in He2. fold e2 in He2.
  set (B2 := e2.1.2) in *.
  assert (HB2 : B2 = set_Ns (uadd (Ns B1) 1)
                       (set_CKs (Crypto.KdfCK (Crypto B1) (CKs B1)).1 B1))
    by (unfold B2; by rewrite He2).
  assert (Hh2 : e2.2 = hB1) by (by rewrite He2).
  assert (HfreeA : forall key, map_lookup hA2 (MkSkipped A1) key = None).
  { intros key. rewrite Hframe2.
    - rewrite Hh1, HA1. simpl. apply HemptyA.
    - rewrite HPN1, HA1. simpl. intros i Hi. lia.
    - rewrite HNs1. intros i Hi. lia. }
  (* Alice's second message. *)
  intros e3.
  pose proof (RatchetEncrypt_eq A2 hA2 p3 ad) as He3.
  cbv zeta in He3. fold e3 in He3.
  assert (HPNA2 : PN A2 = 1) by (rewrite HPN2, HA1; reflexivity).
  split; [by rewrite He1|].
  split; [rewrite He3; simpl; by rewrite HDHs2, HNs2, HPNA2|].
  destruct Hsync2 as (HcA2 & HdhrA2 & _ & HnrA2).
  assert (HcryptoA2 : Crypto A2 = crypto) by (rewrite HcA2, HB2; simpl; done).
  destruct (RatchetDecrypt_follows A2 hA2 B2 e2.2 p3 ad dhsB3)
    as (q3 & B3 & hB3 & Hrun3 & Hq3 & _).
  { exact Hleads2. }
  { rewrite HcryptoA2, HDHs2. exact Hagree3. }
  { rewrite HDHs2, HB2. simpl. rewrite HdhrB1, HA1. simpl. exact HpubA2. }
  { rewrite HDHs2, HB2. simpl. rewrite HdhrB1, HA1. simpl. exact HlenA2. }
  { rewrite Hh2, HB2. simpl. rewrite HMk1. apply HfreeB. }
  { rewrite HB2. simpl. rewrite HnrB1, HA1. simpl. split; [done | reflexivity]. }
  { rewrite HB2. simpl. rewrite HMax1. exact Hu1000. }
  { rewrite HPNA2. split; [done | reflexivity]. }
  { rewrite HNs2. exact Hu0. }
  { rewrite HNs2. reflexivity. }
  { rewrite HPNA2, HB2. simpl. rewrite HnrB1, HMax1, HA1. simpl. done. }
  { rewrite HNs2, HB2. simpl. rewrite HMax1. done. }
  { rewrite HcryptoA2. exact Haead. }
  fold e3 in Hrun3.
  exists q3, B3, hB3. split; [exact Hrun3 | exact Hq3].
Qed.

End EngineTurns.

(** ** Witnesses on the concrete suite *)

(** [Decrypt] of the concrete suite with [nil_for_empty = false] returns
    what [Encrypt] sealed as a non-nil slice. *)
Lemma toy_suite_opens_non_nil mk p aad :
  Crypto.Decrypt (toy_suite false) mk (Crypto.Encrypt (toy_suite false) mk p aad) aad
    = (mk_slice (slice_bytes p), None).
Proof.
  simpl. rewrite take_app_length, drop_app_length.
  rewrite decide_True by reflexivity.
  by destruct (slice_bytes p).
Qed.

Lemma toy_in_sync :
  in_sync (toy_alice_after_second false) (toy_bob_after_second false).1.
Proof. unfold in_sync. repeat split; vm_compute; reflexivity. Defined.

(** Witness of [skippedKey_inj]. *)
Lemma skippedKey_inj_witness :
  length (replicate 32 x0a) = length (replicate 32 x0b) /\
  skippedKey (replicate 32 x0a) 3 <> skippedKey (replicate 32 x0b) 3.
Proof.
  split; [reflexivity|]. intros Heq.
  destruct (proj1 (skippedKey_inj (replicate 32 x0a) (replicate 32 x0b) 3 3 eq_refl) Heq)
    as [Hdh _].
  discriminate Hdh.
Defined.

(** Witness of [skipMessageKeys_bounded]: from [Nr = 5] to 8. *)
Lemma skipMessageKeys_bounded_witness :
  is_uint (Nr toy_receiver_at_five) /\
  is_uint (MaxSkip toy_receiver_at_five) /\
  is_uint 8 /\
  8 <= uadd (Nr toy_receiver_at_five) (MaxSkip toy_receiver_at_five) /\
  Nr (skipMessageKeys toy_receiver_at_five toy_store 8).1.2 = 8.
Proof.
  assert (H5 : is_uint (Nr toy_receiver_at_five)) by (split; [discriminate | reflexivity]).
  assert (Hm : is_uint (MaxSkip toy_receiver_at_five)) by (split; [discriminate | reflexivity]).
  assert (H8 : is_uint 8) by (split; [discriminate | reflexivity]).
  assert (Hg : 8 <= uadd (Nr toy_receiver_at_five) (MaxSkip toy_receiver_at_five))
    by discriminate.
  split; [exact H5|]. split; [exact Hm|]. split; [exact H8|]. split; [exact Hg|].
  destruct (skipMessageKeys_bounded toy_receiver_at_five toy_store 8 H5 Hm H8) as [_ Hok].
  destruct (Hok Hg) as (_ & Hnr & _). rewrite Hnr. reflexivity.
Defined.

(** Witness of [RatchetDecrypt_chain_success]: number 7 reaches a session
    at [Nr = 5]. *)
Lemma RatchetDecrypt_chain_success_witness :
  let s := toy_receiver_at_five in
  let m := toy_chain_message in
  MessageHeader.DH (Header m) = DHr s /\
  map_lookup toy_store (MkSkipped s) (message_key m) = None /\
  is_uint (Nr s) /\ is_uint (MessageHeader.N (Header m)) /\
  MessageHeader.N (Header m) <= uadd (Nr s) (MaxSkip s) /\
  aead_open toy_encode s (chain_message_key (Crypto s) (CKr s) 2) m nil_slice
    = (mk_slice [x68; x69], None) /\
  exists s' h',
    RatchetDecrypt toy_encode s toy_store m nil_slice (toy_pair x0c, None)
      = (mk_slice [x68; x69], None, s', h') /\
    Nr s' = 8 /\
    map_lookup h' (MkSkipped s) (skippedKey (DHr s) 6)
      = Some (chain_message_key (Crypto s) (CKr s) 1).
Proof.
  intros s m.
  assert (Hdh : MessageHeader.DH (Header m) = DHr s) by reflexivity.
  assert (Hmiss : map_lookup toy_store (MkSkipped s) (message_key m) = None)
    by (vm_compute; reflexivity).
  assert (Hnr : is_uint (Nr s)) by (split; [discriminate | reflexivity]).
  assert (Hn : is_uint (MessageHeader.N (Header m))) by (split; [discriminate | reflexivity]).
  assert (Hg : MessageHeader.N (Header m) <= uadd (Nr s) (MaxSkip s)) by discriminate.
  assert (Hopen : aead_open toy_encode s (chain_message_key (Crypto s) (CKr s) 2) m nil_slice
                  = (mk_slice [x68; x69], None)) by (vm_compute; reflexivity).
  split; [exact Hdh|]. split; [exact Hmiss|]. split; [exact Hnr|]. split; [exact Hn|].
  split; [exact Hg|]. split; [exact Hopen|].
  destruct (RatchetDecrypt_chain_success toy_encode s toy_store m nil_slice
              (toy_pair x0c, None) (mk_slice [x68; x69]) Hdh Hmiss Hnr Hn Hg Hopen)
    as (h' & Hrun & Hin & _).
  eexists _, h'. split; [exact Hrun|]. split; [reflexivity|].
  apply (Hin 6). split; [discriminate | reflexivity].
Defined.

(** Witness of [RatchetDecrypt_chain_reject]: the same header over a
    forged ciphertext. *)
Lemma RatchetDecrypt_chain_reject_witness :
  let s := toy_receiver_at_five in
  let m := toy_chain_forged in
  MessageHeader.DH (Header m) = DHr s /\
  map_lookup toy_store (MkSkipped s) (message_key m) = None /\
  is_uint (Nr s) /\ is_uint (MessageHeader.N (Header m)) /\
  MessageHeader.N (Header m) <= uadd (Nr s) (MaxSkip s) /\
  aead_open toy_encode s (chain_message_key (Crypto s) (CKr s) 2) m nil_slice
    = (nil_slice, Some (ErrPrimitive "invalid signature")) /\
  exists h',
    RatchetDecrypt toy_encode s toy_store m nil_slice (toy_pair x0c, None)
      = (nil_slice, Some (ErrFailedDecrypt (ErrPrimitive "invalid signature")), s, h') /\
    map_lookup h' (MkSkipped s) (skippedKey (DHr s) 6)
      = Some (chain_message_key (Crypto s) (CKr s) 1).
Proof.
  intros s m.
  assert (Hdh : MessageHeader.DH (Header m) = DHr s) by reflexivity.
  assert (Hmiss : map_lookup toy_store (MkSkipped s) (message_key m) = None)
    by (vm_compute; reflexivity).
  assert (Hnr : is_uint (Nr s)) by (split; [discriminate | reflexivity]).
  assert (Hn : is_uint (MessageHeader.N (Header m))) by (split; [discriminate | reflexivity]).
  assert (Hg : MessageHeader.N (Header m) <= uadd (Nr s) (MaxSkip s)) by discriminate.
  assert (Hopen : aead_open toy_encode s (chain_message_key (Crypto s) (CKr s) 2) m nil_slice
                  = (nil_slice, Some (ErrPrimitive "invalid signature")))
    by (vm_compute; reflexivity).
  split; [exact Hdh|]. split; [exact Hmiss|]. split; [exact Hnr|]. split; [exact Hn|].
  split; [exact Hg|]. split; [exact Hopen|].
  destruct (RatchetDecrypt_chain_reject toy_encode s toy_store m nil_slice
              (toy_pair x0c, None) nil_slice _ Hdh Hmiss Hnr Hn Hg Hopen)
    as (h' & Hrun & Hin & _).
  exists h'. split; [exact Hrun|].
  apply (Hin 6). split; [discriminate | reflexivity].
Defined.

(** Witness of [RatchetDecrypt_ratchet_success]: Alice's second message is
    the first one to reach fresh Bob. *)
Lemma RatchetDecrypt_ratchet_success_witness :
  let s := toy_bob false in
  let m := (toy_sent false).2 in
  MessageHeader.DH (Header m) <> DHr s /\
  length (MessageHeader.DH (Header m)) = length (DHr s) /\
  map_lookup toy_store (MkSkipped s) (message_key m) = None /\
  exists s' h',
    RatchetDecrypt toy_encode s toy_store m nil_slice (toy_pair x0c, None)
      = (mk_slice [x68; x69], None, s', h') /\
    Nr s' = 2 /\ Ns s' = 0 /\ DHr s' = replicate 32 x0a /\ DHs s' = toy_pair x0c /\
    map_lookup h' (MkSkipped s) (skippedKey (replicate 32 x0a) 0)
      = Some (replicate 32 x9e).
Proof.
  intros s m.
  assert (Hne : MessageHeader.DH (Header m) <> DHr s) by (vm_compute; discriminate).
  assert (Hlen : length (MessageHeader.DH (Header m)) = length (DHr s))
    by (vm_compute; reflexivity).
  assert (Hmiss : map_lookup toy_store (MkSkipped s) (message_key m) = None)
    by (vm_compute; reflexivity).
  split; [exact Hne|]. split; [exact Hlen|]. split; [exact Hmiss|].
  destruct (RatchetDecrypt_ratchet_success toy_encode s toy_store m nil_slice
              (toy_pair x0c) (mk_slice [x68; x69]) Hne Hlen Hmiss)
    as (h' & Hrun & _ & Hin & _).
  - split; [discriminate | reflexivity].
  - split; [discriminate | reflexivity].
  - vm_compute. split; [discriminate | reflexivity].
  - vm_compute. split; [discriminate | reflexivity].
  - vm_compute. discriminate.
  - vm_compute. discriminate.
  - vm_compute. reflexivity.
  - eexists _, h'. split; [exact Hrun|].
    split; [vm_compute; reflexivity|]. split; [reflexivity|].
    split; [vm_compute; reflexivity|]. split; [reflexivity|].
    assert (H0 : 0 <= 0 < MessageHeader.N (Header m)) by (vm_compute; split; [discriminate | reflexivity]).
    specialize (Hin 0 H0).
    assert (Hk : chain_message_key (Crypto s)
                   (Crypto.KdfRK (Crypto s) (RK s)
                      (Crypto.DH (Crypto s) (DHs s) (MessageHeader.DH (Header m)))).2
                   (Z.to_nat 0) = replicate 32 x9e) by (vm_compute; reflexivity).
    rewrite Hk in Hin.
    assert (Hd : MessageHeader.DH (Header m) = replicate 32 x0a) by (vm_compute; reflexivity).
    rewrite Hd in Hin. exact Hin.
Defined.

(** Witness of [RatchetDecrypt_ratchet_errors]: the header reports more
    previous messages than [MaxSkip] allows. *)
Lemma RatchetDecrypt_ratchet_errors_witness :
  let s := toy_bob false in
  let m := toy_far_previous in
  MessageHeader.DH (Header m) <> DHr s /\
  map_lookup toy_store (MkSkipped s) (message_key m) = None /\
  is_uint (Nr s) /\ is_uint (MessageHeader.PN (Header m)) /\
  RatchetDecrypt toy_encode s toy_store m nil_slice (toy_pair x0c, None)
    = (nil_slice, Some (ErrSkipPrevious (ErrTooManyMessages 5000)), s, toy_store).
Proof.
  intros s m.
  assert (Hne : MessageHeader.DH (Header m) <> DHr s) by (vm_compute; discriminate).
  assert (Hmiss : map_lookup toy_store (MkSkipped s) (message_key m) = None)
    by (vm_compute; reflexivity).
  assert (Hnr : is_uint (Nr s)) by (split; [discriminate | reflexivity]).
  assert (Hpn : is_uint (MessageHeader.PN (Header m))) by (split; [discriminate | reflexivity]).
  split; [exact Hne|]. split; [exact Hmiss|]. split; [exact Hnr|]. split; [exact Hpn|].
  destruct (RatchetDecrypt_ratchet_errors toy_encode s toy_store m nil_slice
              (toy_pair x0c) None Hne Hmiss Hnr Hpn) as [Hfar _].
  rewrite Hfar; reflexivity.
Defined.

(** Witness of [RatchetEncrypt_all_chain]: Alice's first two messages. *)
Lemma RatchetEncrypt_all_chain_witness :
  0 <= Ns (toy_alice false) /\
  Ns (toy_alice false) + Z.of_nat (length toy_plaintexts) < uint_modulus /\
  Ns (RatchetEncrypt_all toy_encode (toy_alice false) toy_store toy_plaintexts
        nil_slice).1.2 = 2.
Proof.
  assert (H0 : 0 <= Ns (toy_alice false)) by discriminate.
  assert (H1 : Ns (toy_alice false) + Z.of_nat (length toy_plaintexts) < uint_modulus)
    by reflexivity.
  split; [exact H0|]. split; [exact H1|].
  destruct (RatchetEncrypt_all_chain toy_encode toy_plaintexts (toy_alice false)
              toy_store nil_slice H0 H1) as (_ & _ & Hs & _).
  rewrite Hs. reflexivity.
Defined.

(** Witness of [RatchetDecrypt_in_sync]: Alice has sent two messages, Bob
    has received the second; Alice sends a third. *)
Lemma RatchetDecrypt_in_sync_witness :
  let a := toy_alice_after_second false in
  let b := (toy_bob_after_second false).1 in
  let hb := (toy_bob_after_second false).2 in
  in_sync a b /\
  map_lookup hb (MkSkipped b) (skippedKey (DHPair.PublicKey (DHs a)) (Ns a)) = None /\
  exists p s',
    RatchetDecrypt toy_encode b hb
      (RatchetEncrypt toy_encode a toy_store (mk_slice [x21]) nil_slice).1.1
      nil_slice (toy_pair x0d, None)
      = (p, None, s', hb) /\
    slice_bytes p = [x21].
Proof.
  intros a b hb.
  assert (Hmiss : map_lookup hb (MkSkipped b)
                    (skippedKey (DHPair.PublicKey (DHs a)) (Ns a)) = None)
    by (vm_compute; reflexivity).
  split; [exact toy_in_sync|]. split; [exact Hmiss|].
  destruct (RatchetDecrypt_in_sync toy_encode a toy_store b hb (mk_slice [x21])
              nil_slice (toy_pair x0d, None) toy_in_sync)
    as (p & Hrun & Hp & _).
  - vm_compute. split; [discriminate | reflexivity].
  - vm_compute. reflexivity.
  - vm_compute. discriminate.
  - vm_compute. reflexivity.
  - exact Hmiss.
  - intros mk p aad. apply (toy_suite_opens false).
  - eexists p, _. split; [exact Hrun | exact Hp].
Defined.

(** Witness of [RatchetDecrypt_out_of_order]: Alice sends a third and a
    fourth message, which reach Bob in the wrong order. *)
Lemma RatchetDecrypt_out_of_order_witness :
  let a := toy_alice_after_second false in
  let b := (toy_bob_after_second false).1 in
  let hb := (toy_bob_after_second false).2 in
  let e0 := RatchetEncrypt toy_encode a toy_store (mk_slice [x21]) nil_slice in
  let e1 := RatchetEncrypt toy_encode e0.1.2 e0.2 (mk_slice [x22]) nil_slice in
  in_sync a b /\
  1 <= MaxSkip b /\
  exists b1 hb1 hb2,
    RatchetDecrypt toy_encode b hb e1.1.1 nil_slice (toy_pair x0d, None)
      = (mk_slice [x22], None, b1, hb1) /\
    RatchetDecrypt toy_encode b1 hb1 e0.1.1 nil_slice (toy_pair x0e, None)
      = (mk_slice [x21], None, b1, hb2).
Proof.
  intros a b hb e0 e1.
  split; [exact toy_in_sync|]. split; [vm_compute; discriminate|].
  destruct (RatchetDecrypt_out_of_order toy_encode a toy_store b hb
              (mk_slice [x21]) (mk_slice [x22]) nil_slice
              (toy_pair x0e, None) (toy_pair x0d, None) toy_in_sync)
    as (b1 & hb1 & hb2 & Hrun1 & Hrun0 & _).
  - vm_compute. split; [discriminate | reflexivity].
  - vm_compute. reflexivity.
  - vm_compute. discriminate.
  - vm_compute. reflexivity.
  - vm_compute. reflexivity.
  - vm_compute. reflexivity.
  - intros mk p aad. apply toy_suite_opens_non_nil.
  - exists b1, hb1, hb2. split; [exact Hrun1 | exact Hrun0].
Defined.

(** Witness of [RatchetDecrypt_all_in_order]: Alice's third and fourth
    messages reach Bob in order. *)
Lemma RatchetDecrypt_all_in_order_witness :
  let a := toy_alice_after_second false in
  let b := (toy_bob_after_second false).1 in
  let hb := (toy_bob_after_second false).2 in
  let run := [mk_slice [x21]; mk_slice [x22]] in
  let e := RatchetEncrypt_all toy_encode a toy_store run nil_slice in
  let d := RatchetDecrypt_all toy_encode b hb e.1.1 nil_slice
             (fun _ => (toy_pair x0d, None)) 0 in
  in_sync a b /\
  length d.1.1 = 2%nat /\
  d.2 = hb.
Proof.
  intros a b hb run e d.
  split; [exact toy_in_sync|].
  destruct (RatchetDecrypt_all_in_order toy_encode run a toy_store b hb nil_slice
              (fun _ => (toy_pair x0d, None)) 0%nat toy_in_sync)
    as (Hl & _ & _ & Hh).
  - vm_compute. split; [discriminate | reflexivity].
  - vm_compute. reflexivity.
  - vm_compute. discriminate.
  - vm_compute. discriminate.
  - intros i Hi.
    change (2 <= i < 2 + 2) in Hi.
    assert (Hcases : i = 2 \/ i = 3) by lia.
    destruct Hcases as [-> | ->]; vm_compute; reflexivity.
  - intros mk p aad. apply (toy_suite_opens false).
  - split; [exact Hl | exact Hh].
Defined.

(** Witness of [New_options_and_errors]. *)
Lemma New_options_and_errors_witness :
  toy_shared_key <> zeroKey /\
  exists s,
    (New (toy_suite false) toy_shared_key [WithMaxSkip 5] (toy_pair x0b, None) ∅).1
      = inl s /\
    MaxSkip s = 5.
Proof.
  assert (Hsk : toy_shared_key <> zeroKey) by discriminate.
  split; [exact Hsk|].
  destruct (New_options_and_errors (toy_suite false) toy_shared_key (toy_pair x0b) 5 ∅ Hsk)
    as (_ & Hok & _).
  eexists. split; [apply Hok; split; [discriminate | reflexivity] | reflexivity].
Defined.

Lemma toy_alice_leads_bob : leads (toy_alice false) (toy_bob false).
Proof.
  unfold leads.
  split; [reflexivity|]. split; [reflexivity|].
  split; vm_compute; reflexivity.
Defined.

(** Witness of [RatchetDecrypt_follows_ratchet]: Alice's first message at
    fresh Bob. *)
Lemma RatchetDecrypt_follows_ratchet_witness :
  let a := toy_alice false in
  let b := toy_bob false in
  leads a b /\
  DHPair.PublicKey (DHs a) <> DHr b /\
  exists p b' hb',
    RatchetDecrypt toy_encode b toy_store
      (RatchetEncrypt toy_encode a toy_store (mk_slice [x68; x69]) nil_slice).1.1
      nil_slice (toy_pair x0c, None)
      = (p, None, b', hb') /\
    slice_bytes p = [x68; x69] /\
    Ns b' = 0 /\ DHs b' = toy_pair x0c.
Proof.
  intros a b.
  assert (Hne : DHPair.PublicKey (DHs a) <> DHr b) by (vm_compute; discriminate).
  split; [exact toy_alice_leads_bob|]. split; [exact Hne|].
  destruct (RatchetDecrypt_follows_ratchet toy_encode a toy_store b toy_store
              (mk_slice [x68; x69]) nil_slice (toy_pair x0c) toy_alice_leads_bob)
    as (p & b' & hb' & Hrun & Hp & _ & _ & Hns & _ & Hdhs).
  - vm_compute. reflexivity.
  - exact Hne.
  - vm_compute. reflexivity.
  - vm_compute. reflexivity.
  - split; [discriminate | reflexivity].
  - split; [discriminate | reflexivity].
  - split; [discriminate | reflexivity].
  - split; [discriminate | reflexivity].
  - reflexivity.
  - discriminate.
  - discriminate.
  - intros mk p aad. apply (toy_suite_opens false).
  - exists p, b', hb'. split; [exact Hrun|]. split; [exact Hp|].
    split; [exact Hns | exact Hdhs].
Defined.

(** Witness of [conversation_from_fresh_sessions]: Alice and Bob on the
    concrete suite. *)
Lemma conversation_from_fresh_sessions_witness :
  toy_shared_key <> zeroKey /\
  dh_agree (toy_suite false) (toy_pair x0b) (toy_pair x0a) /\
  dh_agree (toy_suite false) (toy_pair x0c) (toy_pair x0a) /\
  dh_agree (toy_suite false) (toy_pair x0d) (toy_pair x0c) /\
  dh_agree (toy_suite false) (toy_pair x0e) (toy_pair x0d) /\
  exists A hA0 B hB0,
    New (toy_suite false) toy_shared_key
      [WithRemoteKey (DHPair.PublicKey (toy_pair x0b))] (toy_pair x0a, None) ∅
      = (inl A, hA0) /\
    New (toy_suite false) toy_shared_key [] (toy_pair x0b, None) ∅ = (inl B, hB0) /\
    exists q1 B1 hB1,
      RatchetDecrypt toy_encode B hB0
        (RatchetEncrypt toy_encode A hA0 (mk_slice [x68; x69]) nil_slice).1.1
        nil_slice (toy_pair x0c, None)
        = (q1, None, B1, hB1) /\
      slice_bytes q1 = [x68; x69].
Proof.
  assert (Hsk : toy_shared_key <> zeroKey) by discriminate.
  assert (H0 : dh_agree (toy_suite false) (toy_pair x0b) (toy_pair x0a)) by reflexivity.
  assert (H1 : dh_agree (toy_suite false) (toy_pair x0c) (toy_pair x0a)) by reflexivity.
  assert (H2 : dh_agree (toy_suite false) (toy_pair x0d) (toy_pair x0c)) by reflexivity.
  assert (H3 : dh_agree (toy_suite false) (toy_pair x0e) (toy_pair x0d)) by reflexivity.
  split; [exact Hsk|]. split; [exact H0|]. split; [exact H1|]. split; [exact H2|].
  split; [exact H3|].
  destruct (conversation_from_fresh_sessions toy_encode (toy_suite false)
              toy_shared_key (toy_pair x0a) (toy_pair x0b) (toy_pair x0c)
              (toy_pair x0d) (toy_pair x0e) ∅ ∅
              (mk_slice [x68; x69]) (mk_slice [x21]) (mk_slice [x22]) nil_slice
              Hsk H0 H1 H2 H3 (toy_suite_opens false))
    as (A & hA0 & B & hB0 & HA & HB & q1 & B1 & hB1 & Hrun & Hq1 & _).
  - discriminate.
  - discriminate.
  - discriminate.
  - reflexivity.
  - reflexivity.
  - reflexivity.
  - exists A, hA0, B, hB0. split; [exact HA|]. split; [exact HB|].
    exists q1, B1, hB1. split; [exact Hrun | exact Hq1].
Defined.
